(** * home_usage.py: disk-usage warnings with a one-day cooldown

    A shallow embedding of [bin/home_usage.py].  The script asks Starfish
    for the per-user size of the home directories of a group, and for each
    user above [ARG.LIMIT] TiB looks the user up in Workday, decides with
    [notify_allowed] whether a warning may be sent and, in write mode,
    sends it with [generate_email], which also records the notification in
    the MongoDB collection [storage.overage].

    Conventions of the model
    - a [datetime] is an integer number of microseconds, a [timedelta] is
      normalised into days, seconds and microseconds as Python does;
    - a decoded JSON value is a [pyval]; dictionaries are finite maps;
    - the collection [overage] is the list of its documents;
    - the outer world (clock, HTTP services, mail transport, database
      driver) is an [env] of oracles indexed by the number of interactions
      performed so far;
    - a computation is a function from the [world] to an [outcome]: a normal
      return, [sys.exit] or an uncaught exception. *)

From Stdlib Require Import ZArith QArith String List Lia.
From stdpp Require Import base option gmap strings list.

Local Open Scope string_scope.
Local Open Scope list_scope.
Local Open Scope stdpp_scope.
Local Open Scope Z_scope.

(** ** Python values and exceptions *)

#[local] Unset Elimination Schemes.
Inductive pyval : Type :=
| PNone
| PBool (b : bool)
| PInt (n : Z)
| PStr (s : string)
| PList (l : list pyval)
| PDict (d : gmap string pyval).
#[local] Set Elimination Schemes.

Inductive request_exception := HTTPError | ConnectionError | Timeout.

Inductive exn :=
| KeyError (key : string)
| TypeError
| RequestException (r : request_exception)
| OtherException (what : string).

(** [bool(v)], as used by [if not work]. *)
Definition truthy (v : pyval) : bool :=
  match v with
  | PNone => false
  | PBool b => b
  | PInt n => negb (n =? 0)
  | PStr s => negb (String.eqb s "")
  | PList l => negb (Nat.eqb (length l) 0)
  | PDict d => negb (Nat.eqb (size d) 0)
  end.

(** [v == s] for a string [s]. *)
Definition eq_str (v : pyval) (s : string) : bool :=
  match v with
  | PStr t => String.eqb t s
  | _ => false
  end.

(** [key in v]: key membership in a dict, element membership in a list,
    substring test in a string, [TypeError] otherwise. *)
Definition contains (key : string) (v : pyval) : exn + bool :=
  match v with
  | PDict d => inr (bool_decide (is_Some (d !! key)))
  | PList l => inr (existsb (fun x => eq_str x key) l)
  | PStr s => inr (bool_decide (is_Some (String.index 0 key s)))
  | PNone | PBool _ | PInt _ => inl TypeError
  end.

(** [v[key]] for a string [key]. *)
Definition getitem (v : pyval) (key : string) : exn + pyval :=
  match v with
  | PDict d =>
      match d !! key with
      | Some x => inr x
      | None => inl (KeyError key)
      end
  | _ => inl TypeError
  end.

(** ** Time *)

Definition DAY : Z := 3600 * 24.

Record timedelta := { days : Z; seconds : Z; microseconds : Z }.

(** [a - b] on datetimes: the difference in microseconds, normalised with
    floor division so that [0 <= seconds < 86400] and
    [0 <= microseconds < 10^6]. *)
Definition datetime_sub (a b : Z) : timedelta :=
  let us := a - b in
  let s := us / 1000000 in
  {| days := s / 86400; seconds := s mod 86400; microseconds := us mod 1000000 |}.

(** ** The world *)

(** A document of [storage.overage]; [doc_size] is its field [size]. *)
Record overage := { userId : string; doc_size : string; notified : Z }.

Inductive level := INFO | WARNING | ERROR | CRITICAL.

Inductive logmsg :=
| LogExn (e : exn)
| LogText (s : string)
| LogStatus (code : Z)
| LogNotInWorkday (fn : string)
| LogSending (addr : pyval)
| LogCooldown (userid : string) (left : Z).

Inductive colour := GREEN | YELLOW | RED.

Record email := {
  mail_first : pyval;
  mail_consumed : string;
  mail_limit : Q;
  mail_sender : string;
  mail_receivers : list pyval;
  mail_subject : string }.

Record world := {
  db_overage : list overage;
  steps : nat;
  logged : list (level * logmsg);
  printed : list (colour * string * string);
  outbox : list email }.

Inductive response (A : Type) :=
| Failed (r : request_exception)
| Reply (status_code : Z) (json : A) (content : string).
Arguments Failed {A} r.
Arguments Reply {A} status_code json content.

Record usr := { fn : string; rec_aggrs_size : Z; rec_aggrs_size_hum : string }.

Record env := {
  now_at : nat -> Z;
  starfish_get : nat -> string -> response (list usr);
  config_get : nat -> string -> response pyval;
  send_email_raises : nat -> option exn;
  find_one_raises : nat -> option exn;
  update_one_raises : nat -> option exn }.

Record args := { LIMIT : Q; GROUP : string; WRITE : bool }.

Record rest_services := { url : string -> string; starfish_query : string -> string }.

(** ** Computations *)

Inductive outcome (A : Type) :=
| Ret (a : A) (w : world)
| Exit (code : Z) (w : world)
| Raise (e : exn) (w : world).
Arguments Ret {A} a w.
Arguments Exit {A} code w.
Arguments Raise {A} e w.

Definition final {A} (o : outcome A) : world :=
  match o with
  | Ret _ w | Exit _ w | Raise _ w => w
  end.

Definition M (A : Type) : Type := world -> outcome A.

#[export] Instance M_ret : MRet M := fun A a w => Ret a w.

#[export] Instance M_bind : MBind M := fun A B f c w =>
  match c w with
  | Ret a w' => f a w'
  | Exit code w' => Exit code w'
  | Raise e w' => Raise e w'
  end.

Definition raise {A} (e : exn) : M A := fun w => Raise e w.

Definition sys_exit {A} (code : Z) : M A := fun w => Exit code w.

Definition lift {A} (r : exn + A) : M A :=
  match r with
  | inl e => raise e
  | inr a => mret a
  end.

(** [try: c / except <class> as err: handler err], followed by [k]: an exception of [c]
    that [catches] accepts runs the handler; a normal return of
    [c] goes on with [k], whose own exceptions are not caught. *)
Definition try_except {A B} (catches : exn -> bool) (c : M A) (handler : exn -> M B)
    (k : A -> M B) : M B := fun w =>
  match c w with
  | Ret a w' => k a w'
  | Exit code w' => Exit code w'
  | Raise e w' => if catches e then handler e w' else Raise e w'
  end.

Definition Exception (e : exn) : bool := true.

Definition is_RequestException (e : exn) : bool :=
  match e with RequestException _ => true | _ => false end.

Definition is_HTTPError (e : exn) : bool :=
  match e with RequestException HTTPError => true | _ => false end.

Fixpoint for_each {A} (l : list A) (body : A -> M unit) : M unit :=
  match l with
  | [] => mret tt
  | x :: rest => body x ≫= fun _ => for_each rest body
  end.

Definition tick (w : world) : world :=
  {| db_overage := db_overage w; steps := S (steps w); logged := logged w;
     printed := printed w; outbox := outbox w |}.

Definition LOGGER (lv : level) (m : logmsg) : M unit := fun w =>
  Ret tt {| db_overage := db_overage w; steps := steps w;
            logged := logged w ++ [(lv, m)];
            printed := printed w; outbox := outbox w |}.

Definition print (c : colour) (name hum : string) : M unit := fun w =>
  Ret tt {| db_overage := db_overage w; steps := steps w; logged := logged w;
            printed := printed w ++ [(c, name, hum)]; outbox := outbox w |}.

(** [coll.find_one({'userId': userid})] on a list of documents. *)
Definition lookup_doc (userid : string) (coll : list overage) : option overage :=
  List.find (fun r => String.eqb (userId r) userid) coll.

(** [coll.update_one({'userId': userid}, {"$set": payload}, upsert=True)]: the first
    matching document takes the payload's fields, and a new document is
    added when none matches. *)
Fixpoint upsert (userid : string) (payload : overage) (coll : list overage)
    : list overage :=
  match coll with
  | [] => [payload]
  | r :: rest =>
      if String.eqb (userId r) userid then payload :: rest
      else r :: upsert userid payload rest
  end.

Definition SENDER : string := "donotreply@hhmi.org".

(** [if msg] in [terminate_program]. *)
Definition msg_truthy (msg : option logmsg) : bool :=
  match msg with
  | None => false
  | Some (LogText s) => negb (String.eqb s "")
  | Some _ => true
  end.

Section Program.

Context (E : env) (ARG : args) (REST : rest_services).

(** [datetime.now()]: a reading of the clock. *)
Definition datetime_now : M Z := fun w => Ret (now_at E (steps w)) (tick w).

(** The driver either raises or answers from the collection. *)
Definition find_one (userid : string) : M (option overage) := fun w =>
  match find_one_raises E (steps w) with
  | Some e => Raise e (tick w)
  | None => Ret (lookup_doc userid (db_overage w)) (tick w)
  end.

Definition update_one (userid : string) (payload : overage) : M unit := fun w =>
  match update_one_raises E (steps w) with
  | Some e => Raise e (tick w)
  | None =>
      Ret tt {| db_overage := upsert userid payload (db_overage w);
                steps := S (steps w); logged := logged w;
                printed := printed w; outbox := outbox w |}
  end.

(** [JRC.send_email]: raises, or delivers the message. *)
Definition send_email (m : email) : M unit := fun w =>
  match send_email_raises E (steps w) with
  | Some e => Raise e (tick w)
  | None =>
      Ret tt {| db_overage := db_overage w; steps := S (steps w);
                logged := logged w; printed := printed w;
                outbox := outbox w ++ [m] |}
  end.

(** [requests.get(url, ...)] with the decoded body of the reply. *)
Definition requests_get {A} (get : nat -> string -> response A) (u : string)
    : M (Z * A * string) := fun w =>
  match get (steps w) u with
  | Failed r => Raise (RequestException r) (tick w)
  | Reply code body raw => Ret (code, body, raw) (tick w)
  end.

(** Lines 32-41: log the message, if any, and leave with -1, or with 0
    when there is none. *)
Definition terminate_program {A} (msg : option logmsg) : M A :=
  (match msg with
   | Some m => if msg_truthy msg then LOGGER CRITICAL m else mret tt
   | None => mret tt
   end) ≫= fun _ =>
  sys_exit (if msg_truthy msg then -1 else 0).

(** Lines 71-93: a failed request ends the program, 200 returns the
    decoded body, 404 returns [None], any other status ends the program. *)
Definition call_responder {A} (get : nat -> string -> response A)
    (server endpoint : string) : M (option A) :=
  let u := url REST server +:+ endpoint in
  try_except is_RequestException (requests_get get u)
    (fun err => terminate_program (Some (LogExn err)))
    (fun req =>
       let '(status_code, json, content) := req in
       if status_code =? 200 then mret (Some json)
       else if status_code =? 404 then mret None
       else
         (if status_code =? 400 then LOGGER ERROR (LogText content) else mret tt) ≫= fun _ =>
         terminate_program (Some (LogStatus status_code)) ≫= fun _ : unit =>
         mret None).

(** Lines 97-125: [work['first']] is read outside the [try]; an exception
    while sending is logged and the function returns; otherwise the
    notification is recorded, and a failure to record it ends the
    program. *)
Definition generate_email (userid : string) (work : pyval) (consumed : string)
    : M unit :=
  first ← lift (getitem work "first");
  try_except Exception
    (addr ← lift (getitem work "email");
     LOGGER INFO (LogSending addr);;
     send_email {| mail_first := first; mail_consumed := consumed;
                   mail_limit := LIMIT ARG; mail_sender := SENDER;
                   mail_receivers := [addr];
                   mail_subject := "Disk space warning" |})
    (fun err => LOGGER ERROR (LogExn err))
    (fun _ =>
       now ← datetime_now;
       let payload := {| userId := userid; doc_size := consumed; notified := now |} in
       try_except Exception (update_one userid payload)
         (fun err => terminate_program (Some (LogExn err)))
         (fun _ => mret tt)).

(** Lines 128-153. *)
Definition notify_allowed (userid : string) (work : pyval) : M bool :=
  if negb (truthy work) then mret false else
  has_config ← lift (contains "config" work);
  if negb has_config then mret false else
  config ← lift (getitem work "config");
  active ← lift (getitem config "active");
  if negb (eq_str active "Y") then mret false else
  try_except Exception (find_one userid)
    (fun err => terminate_program (Some (LogExn err)))
    (fun result =>
       match result with
       | None => mret true
       | Some doc =>
           now ← datetime_now;
           let delta := datetime_sub now (notified doc) in
           (if days delta <? 1
            then LOGGER WARNING (LogCooldown userid (DAY - seconds delta))
            else mret tt);;
           mret (1 <=? days delta)
       end).

(** [a > b] for an integer [a] and the float [b], which Python compares by
    value. *)
Definition gt (a : Z) (b : Q) : bool := negb (Qle_bool (inject_Z a) b).

(** Line 165: [usr['rec_aggrs']['size'] > ARG.LIMIT * (1024 ** 4)]. *)
Definition exceeds (u : usr) : bool :=
  gt (rec_aggrs_size u) (LIMIT ARG * inject_Z (1024 ^ 4)).

(** Lines 165-178: the body of the loop of [process_usage], for one row
    of the Starfish answer. *)
Definition process_usr (u : usr) : M unit :=
  if exceeds u then
    try_except is_HTTPError
      (call_responder (config_get E) "config" ("config/workday/" +:+ fn u))
      (fun _ => terminate_program (Some (LogNotInWorkday (fn u))))
      (fun data =>
         let data := default PNone data in
         allowed ← notify_allowed (fn u) data;
         if negb allowed then print YELLOW (fn u) (rec_aggrs_size_hum u)
         else
           print RED (fn u) (rec_aggrs_size_hum u);;
           if WRITE ARG then
             config ← lift (getitem data "config");
             generate_email (fn u) config (rec_aggrs_size_hum u)
           else mret tt)
  else print GREEN (fn u) (rec_aggrs_size_hum u).

(** Lines 156-178: iterating over [None] (a 404 from Starfish) is a
    [TypeError]. *)
Definition process_usage : M unit :=
  resp ← call_responder (starfish_get E) "starfish" (starfish_query REST (GROUP ARG));
  match resp with
  | None => raise TypeError
  | Some rows => for_each rows process_usr
  end.

(** The script's entry point, after [initialize_program] has found the
    token and connected the database. *)
Definition main : M unit :=
  process_usage;;
  terminate_program None.

End Program.

(** ** Vocabulary of the statements *)

Definition returns {A} (c : M A) (w : world) (a : A) : Prop :=
  exists w', c w = Ret a w'.

(** A computation that, however it ends, leaves the collection [overage]
    as it found it, and does not undo interactions. *)
Definition reads_only {A} (c : M A) : Prop :=
  forall w,
    db_overage (final (c w)) = db_overage w /\
    (steps w <= steps (final (c w)))%nat.

(** The clock never runs backwards. *)
Definition monotone_clock (E : env) : Prop :=
  forall i j, (i <= j)%nat -> now_at E i <= now_at E j.

(** The clock never falls back by more than a day (it may be set back by
    less, as local time is at the end of daylight saving time). *)
Definition steady_clock (E : env) : Prop :=
  forall i j, (i <= j)%nat -> now_at E i - 86400 * 1000000 <= now_at E j.

(** From [w] to [w']: every document found for a user in [w] is still found
    in [w'], either the same or with [notified] moved forward to a reading
    of the clock taken in between. *)
Definition advanced (E : env) (w w' : world) : Prop :=
  (steps w <= steps w')%nat /\
  forall userid doc,
    lookup_doc userid (db_overage w) = Some doc ->
    exists doc',
      lookup_doc userid (db_overage w') = Some doc' /\
      (doc' = doc \/
       (notified doc <= notified doc' /\
        exists k, (steps w <= k < steps w')%nat /\ notified doc' = now_at E k)).

(** The world at the start of a run. *)
Definition world_with (coll : list overage) : world :=
  {| db_overage := coll; steps := 0; logged := []; printed := []; outbox := [] |}.

(** The message [generate_email] hands to [JRC.send_email]. *)
Definition mail_for (ARG : args) (first addr : pyval) (consumed : string) : email :=
  {| mail_first := first; mail_consumed := consumed; mail_limit := LIMIT ARG;
     mail_sender := SENDER; mail_receivers := [addr];
     mail_subject := "Disk space warning" |}.

(** Successive runs of the script, each in its own environment, sharing
    the collection. *)
Definition run_once (cfg : env * args * rest_services) (coll : list overage)
    : list overage :=
  let '(E, ARG, REST) := cfg in
  db_overage (final (process_usage E ARG REST (world_with coll))).

Definition runs (cfgs : list (env * args * rest_services)) (coll : list overage)
    : list overage :=
  fold_left (fun c cfg => run_once cfg c) cfgs coll.

(** ** Sample data *)

Definition alice_config : pyval :=
  PDict {[ "active" := PStr "Y"; "first" := PStr "Alice";
           "email" := PStr "alice@janelia.hhmi.org" ]}.

Definition alice_work : pyval := PDict {[ "config" := alice_config ]}.

Definition work_with_active (active : pyval) : pyval :=
  PDict {[ "config" := PDict {[ "active" := active ]} ]}.

Definition alice : usr :=
  {| fn := "alice"; rec_aggrs_size := 659706976666; rec_aggrs_size_hum := "614.4G" |}.

Definition sample_args : args := {| LIMIT := 1 # 2; GROUP := "scicomp"; WRITE := true |}.

Definition sample_rest : rest_services :=
  {| url := fun server => "https://" +:+ server +:+ ".int.janelia.org/";
     starfish_query := fun group => "query/" +:+ group |}.

(** An environment whose clock starts at [t0] and advances by one
    microsecond per interaction, where Starfish lists [alice] alone. *)
Definition sample_env (t0 : Z) (workday : response pyval)
    (send_fails update_fails : option exn) : env :=
  {| now_at := fun k => t0 + Z.of_nat k;
     starfish_get := fun _ _ => Reply 200 [alice] "";
     config_get := fun _ _ => workday;
     send_email_raises := fun _ => send_fails;
     find_one_raises := fun _ => None;
     update_one_raises := fun _ => update_fails |}.

Definition alice_doc (T : Z) : overage :=
  {| userId := "alice"; doc_size := "600.1G"; notified := T |}.


(** ** Start-up

    The part of the script that runs before [process_usage]: the block
    under [__main__] (after the arguments are parsed and logging is set up)
    and [initialize_program].  What start-up reads from outside is a
    [startup]: the process environment, the flag [--debug], the answer of
    Starfish about the token, the two configurations served by
    [JRC.get_config] and the behaviour of [JRC.connect_database]. *)

From Stdlib Require Import Ascii.

Record dbo := { name : string; host : string; user : string }.

Record auth := { valid_until_hum : string }.

Inductive connection := Connection (to : dbo).

Record startup := {
  environ : gmap string string;
  DEBUG : bool;
  auth_get : nat -> string -> response auth;
  rest_services_config : nat -> exn + rest_services;
  databases_config : nat -> exn + gmap string dbo;
  connect_database_raises : nat -> option exn }.

(** [s.split(sep)] for a one-character separator. *)
Fixpoint split (sep : ascii) (s : string) : list string :=
  match s with
  | EmptyString => [EmptyString]
  | String c rest =>
      if Ascii.eqb c sep then EmptyString :: split sep rest
      else
        match split sep rest with
        | piece :: pieces => String c piece :: pieces
        | [] => [String c EmptyString]
        end
  end.

(** [l[i]] on a list. *)
Definition list_getitem {A} (l : list A) (i : nat) : exn + A :=
  match l !! i with
  | Some x => inr x
  | None => inl (OtherException "IndexError")
  end.

(** [os.environ[key]]. *)
Definition environ_getitem (env : gmap string string) (key : string) : exn + string :=
  match env !! key with
  | Some x => inr x
  | None => inl (KeyError key)
  end.

(** [attrgetter(path)(config)], the configuration being keyed by dotted
    paths. *)
Definition attrgetter (path : string) (config : gmap string dbo) : exn + dbo :=
  match config !! path with
  | Some x => inr x
  | None => inl (OtherException "AttributeError")
  end.

(** [JRC.get_config(...)]: raises, or returns the configuration. *)
Definition get_config {A} (answer : nat -> exn + A) : M A := fun w =>
  match answer (steps w) with
  | inl e => Raise e (tick w)
  | inr config => Ret config (tick w)
  end.

Section Startup.

Context (ST : startup) (E : env) (ARG : args).

(** [JRC.connect_database(dbo)]: raises, or returns a connection. *)
Definition connect_database (d : dbo) : M connection := fun w =>
  match connect_database_raises ST (steps w) with
  | Some e => Raise e (tick w)
  | None => Ret (Connection d) (tick w)
  end.

(** One turn of the loop [for source in ("storage",)] of
    [initialize_program], lines 62-68; [DB] is returned with the new
    connection. *)
Definition connect_source (dbconfig : gmap string dbo)
    (DB : gmap string connection) (source : string) : M (gmap string connection) :=
  d ← lift (attrgetter (source +:+ ".dev.write") dbconfig);
  LOGGER INFO (LogText ("Connecting to " +:+ name d +:+ " dev on " +:+ host d
                        +:+ " as " +:+ user d));;
  try_except Exception (connect_database d)
    (fun err => terminate_program (Some (LogExn err)))
    (fun conn => mret (<[source := conn]> DB)).

Fixpoint for_sources (sources : list string) (dbconfig : gmap string dbo)
    (DB : gmap string connection) : M (gmap string connection) :=
  match sources with
  | [] => mret DB
  | source :: rest =>
      connect_source dbconfig DB source ≫= fun DB' => for_sources rest dbconfig DB'
  end.

(** Lines 44-68; the result is the dictionary [DB] as the function leaves
    it. *)
Definition initialize_program (REST : rest_services) : M (gmap string connection) :=
  (if negb (bool_decide (is_Some (environ ST !! "STARFISH_JWT")))
   then terminate_program
          (Some (LogText "Environment variable STARFISH_JWT is not defined"))
   else mret tt);;
  (if DEBUG ST then
     token ← lift (environ_getitem (environ ST) "STARFISH_JWT");
     part ← lift (list_getitem (split ":"%char token) 1);
     details ← call_responder REST (auth_get ST) "starfish" ("auth/" +:+ part);
     match details with
     | None => raise TypeError
     | Some d => LOGGER WARNING (LogText ("Token is valid until " +:+ valid_until_hum d))
     end
   else mret tt);;
  try_except Exception (get_config (databases_config ST))
    (fun err => terminate_program (Some (LogExn err)))
    (fun dbconfig => for_sources ["storage"] dbconfig ∅).

(** Lines 198-204: load the REST configuration, initialise, process, and
    leave with status 0. *)
Definition script : M unit :=
  try_except Exception (get_config (rest_services_config ST))
    (fun gerr => terminate_program (Some (LogExn gerr)))
    (fun REST =>
       initialize_program REST;;
       process_usage E ARG REST;;
       terminate_program None).

End Startup.

(** ** More vocabulary *)

(** A computation that may log and interact, but neither prints, nor
    sends mail, nor writes to the collection. *)
Definition silent {A} (c : M A) : Prop :=
  forall w,
    db_overage (final (c w)) = db_overage w /\
    outbox (final (c w)) = outbox w /\
    printed (final (c w)) = printed w /\
    (steps w <= steps (final (c w)))%nat.


Definition is_Ret {A} (o : outcome A) : bool :=
  match o with Ret _ _ => true | _ => false end.

(** The document [generate_email] writes for a row at time [t]. *)
Definition doc_for (u : usr) (t : Z) : overage :=
  {| userId := fn u; doc_size := rec_aggrs_size_hum u; notified := t |}.

(** What one turn of the loop of [process_usage] may have done when it
    ends with outcome [o], started in [w]: at most one line printed, for
    this row, and exactly one if the turn returns; and either no mail and no
    write, or, in write mode and for a row above the limit, one mail
    followed or not by the write of this row's document. *)
Definition row_effect (ARG : args) (u : usr) (w : world) (o : outcome unit) : Prop :=
  let w' := final o in
  (steps w <= steps w')%nat /\
  ((exists c, printed w' = printed w ++ [(c, fn u, rec_aggrs_size_hum u)] /\
              (c = GREEN <-> exceeds ARG u = false)) \/
   (printed w' = printed w /\ is_Ret o = false)) /\
  ((db_overage w' = db_overage w /\ outbox w' = outbox w) \/
   (WRITE ARG = true /\ exceeds ARG u = true /\
    printed w' = printed w ++ [(RED, fn u, rec_aggrs_size_hum u)] /\
    exists first addr,
      outbox w' = outbox w ++ [mail_for ARG first addr (rec_aggrs_size_hum u)] /\
      (db_overage w' = db_overage w \/
       exists t, db_overage w' = upsert (fn u) (doc_for u t) (db_overage w)))).

(** Sample start-up data. *)
Definition storage_dbo : dbo :=
  {| name := "storage"; host := "mongodb.int.janelia.org"; user := "storageWrite" |}.

Definition sample_startup (env : gmap string string) (debug : bool)
    (connect_fails : option exn) : startup :=
  {| environ := env; DEBUG := debug;
     auth_get := fun _ _ => Reply 200 {| valid_until_hum := "2030-01-01" |} "";
     rest_services_config := fun _ => inr sample_rest;
     databases_config := fun _ => inr {[ "storage.dev.write" := storage_dbo ]};
     connect_database_raises := fun _ => connect_fails |}.

Definition bob : usr :=
  {| fn := "bob"; rec_aggrs_size := 329853488333; rec_aggrs_size_hum := "307.2G" |}.

Definition dry_args : args := {| LIMIT := 1 # 2; GROUP := "scicomp"; WRITE := false |}.

(** An environment where Starfish answers [starfish], Workday knows
    [alice], and the database driver fails as told. *)
Definition batch_env (t0 : Z) (starfish : response (list usr))
    (find_fails : option exn) : env :=
  {| now_at := fun k => t0 + Z.of_nat k;
     starfish_get := fun _ _ => starfish;
     config_get := fun _ _ => Reply 200 alice_work "";
     send_email_raises := fun _ => None;
     find_one_raises := fun _ => find_fails;
     update_one_raises := fun _ => None |}.

(** ** Running computations *)

Lemma bind_Ret {A B} (c : M A) (f : A -> M B) w a w' :
  c w = Ret a w' -> (c ≫= f) w = f a w'.
Proof. intros H. unfold mbind, M_bind. now rewrite H. Qed.

Lemma bind_Exit {A B} (c : M A) (f : A -> M B) w code w' :
  c w = Exit code w' -> (c ≫= f) w = Exit code w'.
Proof. intros H. unfold mbind, M_bind. now rewrite H. Qed.

Lemma bind_Raise {A B} (c : M A) (f : A -> M B) w e w' :
  c w = Raise e w' -> (c ≫= f) w = Raise e w'.
Proof. intros H. unfold mbind, M_bind. now rewrite H. Qed.

Lemma for_each_app {A} (pre rest : list A) body w0 w :
  for_each pre body w0 = Ret tt w ->
  for_each (pre ++ rest) body w0 = for_each rest body w.
Proof.
  revert w0. induction pre as [|x pre IH]; intros w0; simpl.
  - now intros [= ->].
  - unfold mbind, M_bind. destruct (body x w0) as [[] w1| |]; try discriminate.
    apply IH.
Qed.

(** ** Computations that only read the ledger *)

Lemma reads_only_ret {A} (a : A) : reads_only (mret a).
Proof. intros w. now split. Qed.

Lemma reads_only_raise {A} e : reads_only (@raise A e).
Proof. intros w. now split. Qed.

Lemma reads_only_exit {A} code : reads_only (@sys_exit A code).
Proof. intros w. now split. Qed.

Lemma reads_only_lift {A} (r : exn + A) : reads_only (lift r).
Proof. destruct r; intros w; now split. Qed.

Lemma reads_only_LOGGER lv m : reads_only (LOGGER lv m).
Proof. intros w. now split. Qed.

Lemma reads_only_print c a b : reads_only (print c a b).
Proof. intros w. now split. Qed.

Lemma reads_only_bind {A B} (c : M A) (f : A -> M B) :
  reads_only c -> (forall a, reads_only (f a)) -> reads_only (c ≫= f).
Proof.
  intros Hc Hf w. unfold mbind, M_bind.
  destruct (Hc w) as [Hdb Hst].
  destruct (c w) as [a w'|code w'|e w']; simpl in *; auto.
  destruct (Hf a w') as [Hdb' Hst']. split; [congruence|lia].
Qed.

Lemma reads_only_try {A B} catches (c : M A) (h : exn -> M B) (k : A -> M B) :
  reads_only c -> (forall e, reads_only (h e)) -> (forall a, reads_only (k a)) ->
  reads_only (try_except catches c h k).
Proof.
  intros Hc Hh Hk w. unfold try_except.
  destruct (Hc w) as [Hdb Hst].
  destruct (c w) as [a w'|code w'|e w']; simpl in *; auto.
  - destruct (Hk a w') as [Hdb' Hst']. split; [congruence|lia].
  - destruct (catches e); simpl; auto.
    destruct (Hh e w') as [Hdb' Hst']. split; [congruence|lia].
Qed.

Lemma reads_only_if {A} (b : bool) (c1 c2 : M A) :
  reads_only c1 -> reads_only c2 -> reads_only (if b then c1 else c2).
Proof. now destruct b. Qed.

Lemma reads_only_datetime_now E : reads_only (datetime_now E).
Proof. intros w. simpl. split; [reflexivity|lia]. Qed.

Lemma reads_only_find_one E u : reads_only (find_one E u).
Proof.
  intros w. unfold find_one.
  destruct (find_one_raises E (steps w)); simpl; split; auto; lia.
Qed.

Lemma reads_only_terminate_program {A} msg : reads_only (@terminate_program A msg).
Proof.
  unfold terminate_program. apply reads_only_bind.
  - destruct msg; [apply reads_only_if|]; auto using reads_only_LOGGER, reads_only_ret.
  - intros _. apply reads_only_exit.
Qed.

Lemma reads_only_requests_get {A} (get : nat -> string -> response A) u :
  reads_only (requests_get get u).
Proof.
  intros w. unfold requests_get.
  destruct (get (steps w) u); simpl; split; auto; lia.
Qed.

Lemma reads_only_call_responder {A} REST (get : nat -> string -> response A) s e :
  reads_only (call_responder REST get s e).
Proof.
  unfold call_responder. apply reads_only_try.
  - apply reads_only_requests_get.
  - intros err. apply reads_only_terminate_program.
  - intros [[code body] raw].
    repeat apply reads_only_if; try apply reads_only_ret.
    apply reads_only_bind; [apply reads_only_if; auto using reads_only_LOGGER, reads_only_ret|].
    intros _. apply reads_only_bind; [apply reads_only_terminate_program|].
    intros _. apply reads_only_ret.
Qed.

Lemma reads_only_notify_allowed E u work : reads_only (notify_allowed E u work).
Proof.
  unfold notify_allowed.
  apply reads_only_if; [apply reads_only_ret|].
  apply reads_only_bind; [apply reads_only_lift|]. intros has_config.
  apply reads_only_if; [apply reads_only_ret|].
  apply reads_only_bind; [apply reads_only_lift|]. intros config.
  apply reads_only_bind; [apply reads_only_lift|]. intros active.
  apply reads_only_if; [apply reads_only_ret|].
  apply reads_only_try.
  - apply reads_only_find_one.
  - intros err. apply reads_only_terminate_program.
  - intros [doc|]; [|apply reads_only_ret].
    apply reads_only_bind; [apply reads_only_datetime_now|]. intros now.
    apply reads_only_bind; [|intros _; apply reads_only_ret].
    apply reads_only_if; [apply reads_only_LOGGER|apply reads_only_ret].
Qed.

(** C9: [notify_allowed] only reads the collection [overage]: whatever
    the user id, the Workday record, the world and the behaviour of the
    services, and however the call ends (a return, [sys.exit] after a
    failed lookup, or an exception), the collection afterwards is the
    collection before. *)
Theorem notify_allowed_read_only (E : env) (userid : string) (work : pyval) (w : world) :
  db_overage (final (notify_allowed E userid work w)) = db_overage w.
Proof. apply reads_only_notify_allowed. Qed.

(** ** The guards of [notify_allowed] *)

Lemma getitem_inr v key x :
  getitem v key = inr x <-> exists d, v = PDict d /\ d !! key = Some x.
Proof.
  split.
  - destruct v as [| | | | |d]; simpl; try discriminate.
    destruct (d !! key) eqn:Hk; [|discriminate].
    intros [= <-]. eauto.
  - intros (d & -> & Hk). simpl. now rewrite Hk.
Qed.

Lemma getitem_truthy v key x : getitem v key = inr x -> truthy v = true.
Proof.
  intros (d & -> & Hk)%getitem_inr. simpl.
  destruct (size d) eqn:Hsz; [|reflexivity].
  apply map_size_empty_iff in Hsz. subst d.
  now rewrite lookup_empty in Hk.
Qed.

Lemma getitem_contains v key x : getitem v key = inr x -> contains key v = inr true.
Proof.
  intros (d & -> & Hk)%getitem_inr. simpl. f_equal.
  apply bool_decide_eq_true. now rewrite Hk.
Qed.

Lemma eq_str_true v s : eq_str v s = true <-> v = PStr s.
Proof.
  destruct v; simpl; try (split; [discriminate|intros [=]]).
  rewrite String.eqb_eq. split; [now intros ->|now intros [= ->]].
Qed.

Lemma eq_str_false v s : eq_str v s = false <-> v <> PStr s.
Proof.
  rewrite <- eq_str_true. destruct (eq_str v s); split; congruence.
Qed.

(** Past the Workday checks, [notify_allowed] is the ledger lookup. *)
Lemma notify_allowed_active E userid work config w :
  getitem work "config" = inr config ->
  getitem config "active" = inr (PStr "Y") ->
  notify_allowed E userid work w =
  match find_one_raises E (steps w) with
  | Some e => Exit (-1) (final (LOGGER CRITICAL (LogExn e) (tick w)))
  | None =>
      match lookup_doc userid (db_overage w) with
      | None => Ret true (tick w)
      | Some doc =>
          let delta := datetime_sub (now_at E (S (steps w))) (notified doc) in
          Ret (1 <=? days delta)
            (if days delta <? 1
             then final (LOGGER WARNING (LogCooldown userid (DAY - seconds delta))
                           (tick (tick w)))
             else tick (tick w))
      end
  end.
Proof.
  intros Hc Ha. unfold notify_allowed.
  rewrite (getitem_truthy _ _ _ Hc), (getitem_contains _ _ _ Hc), Hc. simpl.
  unfold mbind, M_bind, mret, M_ret. rewrite Ha. simpl.
  unfold try_except, find_one.
  destruct (find_one_raises E (steps w)) as [e|]; [reflexivity|].
  destruct (lookup_doc userid (db_overage w)) as [doc|]; [|reflexivity].
  simpl. now destruct (_ <? 1).
Qed.

Lemma notify_allowed_inactive E userid work config active w :
  getitem work "config" = inr config ->
  getitem config "active" = inr active ->
  active <> PStr "Y" ->
  notify_allowed E userid work w = Ret false w.
Proof.
  intros Hc Ha Hne. unfold notify_allowed.
  rewrite (getitem_truthy _ _ _ Hc), (getitem_contains _ _ _ Hc), Hc. simpl.
  unfold mbind, M_bind, mret, M_ret. rewrite Ha. simpl.
  apply eq_str_false in Hne. now rewrite Hne.
Qed.

Lemma notify_allowed_no_config E userid d w :
  d !! "config" = None -> notify_allowed E userid (PDict d) w = Ret false w.
Proof.
  intros Hc. unfold notify_allowed.
  destruct (negb (truthy (PDict d))); [reflexivity|].
  simpl. unfold mbind, M_bind, mret, M_ret. simpl.
  rewrite bool_decide_eq_false_2; [reflexivity|].
  rewrite Hc. now intros [x Hx].
Qed.

(** X9: A [config] without the key ['active'] is not handled: line 140 raises
    [KeyError]. *)
Lemma notify_allowed_missing_active E userid d config w :
  d !! "config" = Some (PDict config) ->
  config !! "active" = None ->
  notify_allowed E userid (PDict d) w = Raise (KeyError "active") w.
Proof.
  intros Hc Ha.
  assert (Hg : getitem (PDict d) "config" = inr (PDict config)).
  { simpl. now rewrite Hc. }
  unfold notify_allowed.
  rewrite (getitem_truthy _ _ _ Hg), (getitem_contains _ _ _ Hg), Hg. simpl.
  unfold mbind, M_bind, mret, M_ret. simpl. now rewrite Ha.
Qed.

Lemma notify_allowed_true_active E userid work w w' :
  notify_allowed E userid work w = Ret true w' ->
  exists d config,
    work = PDict d /\ d !! "config" = Some (PDict config) /\
    config !! "active" = Some (PStr "Y").
Proof.
  unfold notify_allowed.
  destruct (negb (truthy work)); [discriminate|].
  unfold mbind, M_bind, mret, M_ret.
  destruct (contains "config" work) as [e|has] eqn:Hin; simpl; [discriminate|].
  destruct has; simpl; [|discriminate].
  destruct (getitem work "config") as [e|config] eqn:Hc; simpl; [discriminate|].
  destruct (getitem config "active") as [e|active] eqn:Ha; simpl; [discriminate|].
  destruct (eq_str active "Y") eqn:Hy; simpl; [|discriminate].
  intros _. apply eq_str_true in Hy. subst active.
  apply getitem_inr in Hc as (d & -> & Hc).
  apply getitem_inr in Ha as (c & -> & Ha). eauto.
Qed.

(** C4: without a Workday record ([None], or a dictionary without
    ['config']), or with a record whose [config.active] is anything but
    ['Y'], [notify_allowed] returns [False] and touches nothing, whatever
    the ledger holds and however the database would answer. *)
Theorem notify_allowed_absent_or_inactive (E : env) (userid : string)
    (work : pyval) (w : world) :
  work = PNone \/
  (exists d, work = PDict d /\ d !! "config" = None) \/
  (exists config active,
     getitem work "config" = inr config /\
     getitem config "active" = inr active /\ active <> PStr "Y") ->
  notify_allowed E userid work w = Ret false w.
Proof.
  intros [->|[(d & -> & Hc)|(config & active & Hc & Ha & Hne)]]; [reflexivity| |].
  - now apply notify_allowed_no_config.
  - eapply notify_allowed_inactive; eauto.
Qed.

(** C5: an active user ([config.active == 'Y']) without a document in
    [overage] may be notified: when the lookup succeeds and finds nothing,
    [notify_allowed] returns [True]. *)
Theorem notify_allowed_never_notified (E : env) (userid : string)
    (work config : pyval) (w : world) :
  getitem work "config" = inr config ->
  getitem config "active" = inr (PStr "Y") ->
  find_one_raises E (steps w) = None ->
  lookup_doc userid (db_overage w) = None ->
  notify_allowed E userid work w = Ret true (tick w).
Proof.
  intros Hc Ha Hf Hl.
  rewrite (notify_allowed_active _ _ _ _ _ Hc Ha), Hf, Hl. reflexivity.
Qed.

(** C1: for an active user whose document in [overage] was written at
    time [T], [notify_allowed], reading the clock at [now], returns whether
    [delta.days >= 1], where [delta.days] is the floor of the elapsed
    seconds divided by 86400.  So it returns [False] for [now] in
    [T, T + 24h) and [True] from [T + 24h] on, the boundary included.
    Times are in microseconds. *)
Theorem notify_allowed_cooldown (E : env) (userid : string)
    (work config : pyval) (doc : overage) (w : world) (T now : Z) :
  getitem work "config" = inr config ->
  getitem config "active" = inr (PStr "Y") ->
  find_one_raises E (steps w) = None ->
  lookup_doc userid (db_overage w) = Some doc ->
  notified doc = T ->
  now_at E (S (steps w)) = now ->
  let elapsed_seconds := (now - T) / 1000000 in
  days (datetime_sub now T) = elapsed_seconds / 86400 /\
  returns (notify_allowed E userid work) w (1 <=? elapsed_seconds / 86400) /\
  (T <= now < T + 24 * 3600 * 1000000 ->
   returns (notify_allowed E userid work) w false) /\
  (T + 24 * 3600 * 1000000 <= now ->
   returns (notify_allowed E userid work) w true) /\
  (now = T + 24 * 3600 * 1000000 -> elapsed_seconds / 86400 = 1).
Proof.
  intros Hc Ha Hf Hl HT Hnow elapsed_seconds.
  assert (Hret : returns (notify_allowed E userid work) w
                   (1 <=? elapsed_seconds / 86400)).
  { unfold returns. rewrite (notify_allowed_active _ _ _ _ _ Hc Ha), Hf, Hl.
    rewrite HT, Hnow. simpl. eauto. }
  split; [reflexivity|]. split; [exact Hret|].
  assert (Hdiv : elapsed_seconds / 86400 = (now - T) / 86400000000).
  { unfold elapsed_seconds. rewrite Z.div_div by lia. reflexivity. }
  split; [|split].
  - intros [Hlo Hhi].
    replace false with (1 <=? elapsed_seconds / 86400); [exact Hret|].
    apply Z.leb_gt. rewrite Hdiv.
    assert ((now - T) / 86400000000 < 1); [|lia].
    apply Z.div_lt_upper_bound; lia.
  - intros Hge.
    replace true with (1 <=? elapsed_seconds / 86400); [exact Hret|].
    apply Z.leb_le. rewrite Hdiv.
    apply Z.div_le_lower_bound; lia.
  - intros ->. rewrite Hdiv.
    replace (T + 24 * 3600 * 1000000 - T) with (1 * 86400000000) by lia.
    now rewrite Z.div_mul.
Qed.

(** C10: [notify_allowed] returns [True] only for a dictionary with a key
    ['config'] whose field ['active'] is the string ['Y']; with any other
    value of [active], and for a dictionary without ['config'], it does
    exactly what it does for an absent user ([None]): it returns [False]. *)
Theorem notify_allowed_needs_active_Y (E : env) (userid : string)
    (work : pyval) (w : world) :
  (forall w', notify_allowed E userid work w = Ret true w' ->
     exists d config,
       work = PDict d /\ d !! "config" = Some (PDict config) /\
       config !! "active" = Some (PStr "Y")) /\
  (forall config active,
     getitem work "config" = inr config ->
     getitem config "active" = inr active ->
     active <> PStr "Y" ->
     notify_allowed E userid work w = Ret false w /\
     notify_allowed E userid work w = notify_allowed E userid PNone w) /\
  (forall d,
     work = PDict d -> d !! "config" = None ->
     notify_allowed E userid work w = Ret false w /\
     notify_allowed E userid work w = notify_allowed E userid PNone w).
Proof.
  split; [|split].
  - intros w'. apply notify_allowed_true_active.
  - intros config active Hc Ha Hne.
    rewrite (notify_allowed_inactive _ _ _ _ _ _ Hc Ha Hne). now split.
  - intros d -> Hc. rewrite (notify_allowed_no_config _ _ _ _ Hc). now split.
Qed.

(** ** The threshold *)

Lemma gt_spec a b : gt a b = true <-> (b < inject_Z a)%Q.
Proof.
  unfold gt. rewrite negb_true_iff, <- not_true_iff_false, Qle_bool_iff.
  split; [apply Qnot_le_lt|apply Qlt_not_le].
Qed.

(** C3: a user is flagged iff [size > LIMIT * 2^40], strictly: at or below
    [LIMIT * 2^40] bytes, equality included, the user is not flagged (and
    is printed in green), above it the user is flagged.  [LIMIT] is taken as
    the number the float stands for. *)
Theorem exceeds_strict (E : env) (ARG : args) (REST : rest_services) (u : usr) :
  let limit_bytes := (LIMIT ARG * inject_Z (2 ^ 40))%Q in
  (exceeds ARG u = true <-> (limit_bytes < inject_Z (rec_aggrs_size u))%Q) /\
  ((inject_Z (rec_aggrs_size u) <= limit_bytes)%Q -> exceeds ARG u = false) /\
  ((inject_Z (rec_aggrs_size u) == limit_bytes)%Q -> exceeds ARG u = false) /\
  ((limit_bytes < inject_Z (rec_aggrs_size u))%Q -> exceeds ARG u = true) /\
  (exceeds ARG u = false ->
   forall w, process_usr E ARG REST u w
             = print GREEN (fn u) (rec_aggrs_size_hum u) w).
Proof.
  intros limit_bytes.
  assert (Hspec : exceeds ARG u = true <-> (limit_bytes < inject_Z (rec_aggrs_size u))%Q).
  { unfold exceeds. apply gt_spec. }
  assert (Hle : (inject_Z (rec_aggrs_size u) <= limit_bytes)%Q -> exceeds ARG u = false).
  { intros Hle. apply not_true_iff_false. rewrite Hspec. now apply Qle_not_lt. }
  split; [exact Hspec|]. split; [exact Hle|]. split; [|split].
  - intros Heq. apply Hle. rewrite Heq. apply Qle_refl.
  - apply Hspec.
  - intros Hno w. unfold process_usr. now rewrite Hno.
Qed.

(** ** The ledger *)

Lemma lookup_doc_upsert_eq userid payload coll :
  userId payload = userid ->
  lookup_doc userid (upsert userid payload coll) = Some payload.
Proof.
  intros Hp. unfold lookup_doc.
  induction coll as [|r coll IH]; simpl.
  - rewrite Hp, String.eqb_refl. reflexivity.
  - destruct (String.eqb (userId r) userid) eqn:Hr; simpl.
    + rewrite Hp, String.eqb_refl. reflexivity.
    + rewrite Hr. exact IH.
Qed.

Lemma lookup_doc_upsert_ne other userid payload coll :
  userId payload = userid -> other <> userid ->
  lookup_doc other (upsert userid payload coll) = lookup_doc other coll.
Proof.
  intros Hp Hne. unfold lookup_doc.
  assert (Hpay : String.eqb (userId payload) other = false).
  { rewrite Hp. apply String.eqb_neq. congruence. }
  induction coll as [|r coll IH]; simpl.
  - now rewrite Hpay.
  - destruct (String.eqb (userId r) userid) eqn:Hr; simpl.
    + rewrite Hpay.
      apply String.eqb_eq in Hr. rewrite Hr.
      destruct (String.eqb userid other) eqn:Ho; [|reflexivity].
      apply String.eqb_eq in Ho. congruence.
    + destruct (String.eqb (userId r) other); [reflexivity|exact IH].
Qed.

Lemma advanced_same E w w' :
  db_overage w' = db_overage w -> (steps w <= steps w')%nat -> advanced E w w'.
Proof.
  intros Hdb Hst. split; [exact Hst|].
  intros userid doc Hl. exists doc. rewrite Hdb. auto.
Qed.

Lemma advanced_trans E w1 w2 w3 :
  advanced E w1 w2 -> advanced E w2 w3 -> advanced E w1 w3.
Proof.
  intros [Hs12 H12] [Hs23 H23]. split; [lia|].
  intros userid doc Hl.
  destruct (H12 _ _ Hl) as (doc2 & Hl2 & Hd2).
  destruct (H23 _ _ Hl2) as (doc3 & Hl3 & Hd3).
  exists doc3. split; [exact Hl3|].
  destruct Hd3 as [->|(Hle3 & k3 & Hk3 & Hn3)].
  - destruct Hd2 as [->|(Hle2 & k2 & Hk2 & Hn2)]; [now left|].
    right. split; [exact Hle2|]. exists k2. split; [lia|exact Hn2].
  - right. split.
    + destruct Hd2 as [->|(Hle2 & _)]; lia.
    + exists k3. split; [lia|exact Hn3].
Qed.

(** ** [call_responder] *)

Lemma call_responder_200 {A} REST (get : nat -> string -> response A)
    server endpoint body raw w :
  get (steps w) (url REST server +:+ endpoint) = Reply 200 body raw ->
  call_responder REST get server endpoint w = Ret (Some body) (tick w).
Proof.
  intros H. unfold call_responder, try_except, requests_get. now rewrite H.
Qed.

Lemma call_responder_404 {A} REST (get : nat -> string -> response A)
    server endpoint body raw w :
  get (steps w) (url REST server +:+ endpoint) = Reply 404 body raw ->
  call_responder REST get server endpoint w = Ret None (tick w).
Proof.
  intros H. unfold call_responder, try_except, requests_get. now rewrite H.
Qed.

(** No exception leaves [call_responder]: a failed request and an
    unexpected status end the program, and 404 is the return value [None]. *)
Lemma call_responder_never_raises {A} REST (get : nat -> string -> response A)
    server endpoint w e w' :
  call_responder REST get server endpoint w <> Raise e w'.
Proof.
  unfold call_responder, try_except, requests_get.
  destruct (get (steps w) _) as [r|code body raw]; simpl.
  - unfold terminate_program, mbind, M_bind. simpl. discriminate.
  - destruct (code =? 200); [discriminate|].
    destruct (code =? 404); [discriminate|].
    unfold terminate_program, mbind, M_bind.
    destruct (code =? 400); simpl; discriminate.
Qed.

(** ** [generate_email] *)

Lemma generate_email_send_fails E ARG userid work consumed first addr err w :
  getitem work "first" = inr first ->
  getitem work "email" = inr addr ->
  send_email_raises E (steps w) = Some err ->
  generate_email E ARG userid work consumed w =
  Ret tt {| db_overage := db_overage w; steps := S (steps w);
            logged := (logged w ++ [(INFO, LogSending addr)]) ++ [(ERROR, LogExn err)];
            printed := printed w; outbox := outbox w |}.
Proof.
  intros Hf Ha Hs. unfold generate_email.
  rewrite Hf, Ha. unfold mbind, M_bind, try_except, send_email. simpl.
  rewrite Hs. reflexivity.
Qed.

Lemma generate_email_update_fails E ARG userid work consumed first addr err w :
  getitem work "first" = inr first ->
  getitem work "email" = inr addr ->
  send_email_raises E (steps w) = None ->
  update_one_raises E (S (S (steps w))) = Some err ->
  generate_email E ARG userid work consumed w =
  Exit (-1) {| db_overage := db_overage w; steps := S (S (S (steps w)));
               logged := (logged w ++ [(INFO, LogSending addr)]) ++ [(CRITICAL, LogExn err)];
               printed := printed w;
               outbox := outbox w ++ [mail_for ARG first addr consumed] |}.
Proof.
  intros Hf Ha Hs Hu. unfold generate_email.
  rewrite Hf, Ha. unfold mbind, M_bind, try_except, send_email. simpl.
  rewrite Hs. unfold update_one. simpl. rewrite Hu. reflexivity.
Qed.

Lemma generate_email_final E ARG userid work consumed w :
  let w' := final (generate_email E ARG userid work consumed w) in
  (steps w <= steps w')%nat /\
  (db_overage w' = db_overage w \/
   (db_overage w' =
      upsert userid {| userId := userid; doc_size := consumed;
                       notified := now_at E (S (steps w)) |} (db_overage w) /\
    steps w' = S (S (S (steps w))))).
Proof.
  unfold generate_email, mbind, M_bind.
  destruct (getitem work "first") as [e|first]; simpl; [auto|].
  unfold try_except.
  destruct (getitem work "email") as [e|addr]; simpl; [auto|].
  unfold send_email. simpl.
  destruct (send_email_raises E (steps w)) as [e|]; simpl; [split; [lia|auto]|].
  unfold update_one. simpl.
  destruct (update_one_raises E (S (S (steps w)))) as [e|]; simpl.
  - split; [lia|auto].
  - split; [lia|right; auto].
Qed.

(** ** One user of the batch *)

Lemma notify_allowed_true_inv E userid work w w' :
  notify_allowed E userid work w = Ret true w' ->
  db_overage w' = db_overage w /\
  (steps w <= steps w')%nat /\
  forall doc,
    lookup_doc userid (db_overage w) = Some doc ->
    notified doc + 86400 * 1000000 <= now_at E (S (steps w)).
Proof.
  intros Hn.
  destruct (reads_only_notify_allowed E userid work w) as [Hdb Hst].
  rewrite Hn in Hdb, Hst. simpl in Hdb, Hst.
  split; [exact Hdb|]. split; [exact Hst|].
  intros doc Hl.
  destruct (notify_allowed_true_active _ _ _ _ _ Hn) as (d & config & -> & Hc & Ha).
  rewrite (notify_allowed_active E userid (PDict d) (PDict config) w) in Hn;
    [|simpl; now rewrite Hc|simpl; now rewrite Ha].
  destruct (find_one_raises E (steps w)); [discriminate|].
  rewrite Hl in Hn. simpl in Hn.
  injection Hn as Hdays _. apply Z.leb_le in Hdays.
  rewrite Z.div_div in Hdays by lia.
  assert (H := Z.mul_div_le (now_at E (S (steps w)) - notified doc) (1000000 * 86400)).
  lia.
Qed.

Lemma notify_allowed_later E E2 userid work w w1 w2 :
  notify_allowed E userid work w = Ret true w1 ->
  db_overage w2 = db_overage w ->
  find_one_raises E2 (steps w2) = None ->
  now_at E (S (steps w)) <= now_at E2 (S (steps w2)) ->
  returns (notify_allowed E2 userid work) w2 true.
Proof.
  intros Hn Hdb Hf Hnow.
  destruct (notify_allowed_true_inv _ _ _ _ _ Hn) as (_ & _ & Hold).
  destruct (notify_allowed_true_active _ _ _ _ _ Hn) as (d & config & -> & Hc & Ha).
  unfold returns.
  rewrite (notify_allowed_active E2 userid (PDict d) (PDict config) w2);
    [|simpl; now rewrite Hc|simpl; now rewrite Ha].
  rewrite Hf, Hdb.
  destruct (lookup_doc userid (db_overage w)) as [doc|] eqn:Hl; [|eauto].
  specialize (Hold doc eq_refl). simpl.
  replace (1 <=? _) with true; [eauto|].
  symmetry. apply Z.leb_le. rewrite Z.div_div by lia.
  apply Z.div_le_lower_bound; lia.
Qed.

Lemma process_usr_notified E ARG REST u data raw config w w1 :
  exceeds ARG u = true ->
  config_get E (steps w) (url REST "config" +:+ "config/workday/" +:+ fn u)
    = Reply 200 data raw ->
  notify_allowed E (fn u) data (tick w) = Ret true w1 ->
  WRITE ARG = true ->
  getitem data "config" = inr config ->
  process_usr E ARG REST u w =
  generate_email E ARG (fn u) config (rec_aggrs_size_hum u)
    (final (print RED (fn u) (rec_aggrs_size_hum u) w1)).
Proof.
  intros Hx Hget Hn Hw Hc. unfold process_usr. rewrite Hx.
  unfold try_except. rewrite (call_responder_200 _ _ _ _ _ _ _ Hget). simpl.
  unfold mbind, M_bind. rewrite Hn. simpl. rewrite Hw, Hc. reflexivity.
Qed.

Lemma process_usr_not_found E ARG REST u body raw w :
  exceeds ARG u = true ->
  config_get E (steps w) (url REST "config" +:+ "config/workday/" +:+ fn u)
    = Reply 404 body raw ->
  process_usr E ARG REST u w =
  print YELLOW (fn u) (rec_aggrs_size_hum u) (tick w).
Proof.
  intros Hx Hget. unfold process_usr. rewrite Hx.
  unfold try_except. rewrite (call_responder_404 _ _ _ _ _ _ _ Hget). reflexivity.
Qed.

(** C6: when [JRC.send_email] raises for a flagged, eligible user in write
    mode, the error is logged, the iteration returns normally so that the
    loop goes on with the rest of the batch, no mail is recorded as sent and
    the collection [overage] is as before; hence a later run that finds the
    same collection, at a time not before this run's check, lets the user be
    notified again. *)
Theorem send_failure_is_logged_not_fatal (E : env) (ARG : args) (REST : rest_services)
    (u : usr) (data config first addr : pyval) (raw : string) (err : exn)
    (w w1 : world) :
  exceeds ARG u = true ->
  config_get E (steps w) (url REST "config" +:+ "config/workday/" +:+ fn u)
    = Reply 200 data raw ->
  notify_allowed E (fn u) data (tick w) = Ret true w1 ->
  WRITE ARG = true ->
  getitem data "config" = inr config ->
  getitem config "first" = inr first ->
  getitem config "email" = inr addr ->
  send_email_raises E (steps w1) = Some err ->
  exists w',
    process_usr E ARG REST u w = Ret tt w' /\
    logged w' = (logged w1 ++ [(INFO, LogSending addr)]) ++ [(ERROR, LogExn err)] /\
    outbox w' = outbox w /\
    db_overage w' = db_overage w /\
    (forall pre rest w0,
       for_each pre (process_usr E ARG REST) w0 = Ret tt w ->
       for_each (pre ++ u :: rest) (process_usr E ARG REST) w0
       = for_each rest (process_usr E ARG REST) w') /\
    (forall E2 w2,
       db_overage w2 = db_overage w' ->
       find_one_raises E2 (steps w2) = None ->
       now_at E (S (steps (tick w))) <= now_at E2 (S (steps w2)) ->
       returns (notify_allowed E2 (fn u) data) w2 true).
Proof.
  intros Hx Hget Hn Hw Hc Hf Ha Hs.
  destruct (notify_allowed_true_inv _ _ _ _ _ Hn) as (Hdb & Hst & _).
  pose proof (reads_only_notify_allowed E (fn u) data (tick w)) as Hro.
  rewrite Hn in Hro. simpl in Hro.
  assert (Hout : outbox w1 = outbox w).
  { destruct (notify_allowed_true_active _ _ _ _ _ Hn) as (d & c & -> & Hc' & Ha').
    rewrite (notify_allowed_active E (fn u) (PDict d) (PDict c) (tick w)) in Hn;
      [|simpl; now rewrite Hc'|simpl; now rewrite Ha'].
    destruct (find_one_raises E (steps (tick w))); [discriminate|].
    destruct (lookup_doc (fn u) (db_overage (tick w))); [|now injection Hn as <-].
    simpl in Hn. injection Hn as _ <-.
    now destruct (_ <? 1). }
  eexists. split.
  - rewrite (process_usr_notified _ _ _ _ _ _ _ _ _ Hx Hget Hn Hw Hc).
    eapply generate_email_send_fails; [exact Hf|exact Ha|exact Hs].
  - simpl. split; [reflexivity|]. split; [exact Hout|]. split; [exact Hdb|]. split.
    + intros pre rest w0 Hpre.
      rewrite (for_each_app _ _ _ _ _ Hpre). cbn [for_each].
      unfold mbind at 1, M_bind at 1.
      rewrite (process_usr_notified _ _ _ _ _ _ _ _ _ Hx Hget Hn Hw Hc).
      erewrite generate_email_send_fails; [reflexivity|exact Hf|exact Ha|exact Hs].
    + intros E2 w2 Hdb2 Hf2 Hnow.
      apply (notify_allowed_later _ _ _ _ _ _ _ Hn); [|exact Hf2|exact Hnow].
      rewrite Hdb2. simpl. exact Hdb.
Qed.

(** C7: when [update_one] raises after the mail was sent, the program logs
    the error as critical and exits with status -1: the rest of the batch
    is not processed. *)
Theorem ledger_write_failure_is_fatal (E : env) (ARG : args) (REST : rest_services)
    (u : usr) (data config first addr : pyval) (raw : string) (err : exn)
    (w w1 : world) :
  exceeds ARG u = true ->
  config_get E (steps w) (url REST "config" +:+ "config/workday/" +:+ fn u)
    = Reply 200 data raw ->
  notify_allowed E (fn u) data (tick w) = Ret true w1 ->
  WRITE ARG = true ->
  getitem data "config" = inr config ->
  getitem config "first" = inr first ->
  getitem config "email" = inr addr ->
  send_email_raises E (steps w1) = None ->
  update_one_raises E (S (S (steps w1))) = Some err ->
  exists w',
    process_usr E ARG REST u w = Exit (-1) w' /\
    logged w' = (logged w1 ++ [(INFO, LogSending addr)]) ++ [(CRITICAL, LogExn err)] /\
    (forall pre rest w0,
       for_each pre (process_usr E ARG REST) w0 = Ret tt w ->
       for_each (pre ++ u :: rest) (process_usr E ARG REST) w0 = Exit (-1) w').
Proof.
  intros Hx Hget Hn Hw Hc Hf Ha Hs Hu.
  eexists. split; [|split].
  - rewrite (process_usr_notified _ _ _ _ _ _ _ _ _ Hx Hget Hn Hw Hc).
    eapply generate_email_update_fails; [exact Hf|exact Ha|exact Hs|exact Hu].
  - reflexivity.
  - intros pre rest w0 Hpre.
    rewrite (for_each_app _ _ _ _ _ Hpre). cbn [for_each].
      unfold mbind at 1, M_bind at 1.
    rewrite (process_usr_notified _ _ _ _ _ _ _ _ _ Hx Hget Hn Hw Hc).
    erewrite generate_email_update_fails; [reflexivity|exact Hf|exact Ha|exact Hs|exact Hu].
Qed.

(** ** A whole run *)

Lemma process_usr_advanced E ARG REST u w :
  steady_clock E -> advanced E w (final (process_usr E ARG REST u w)).
Proof.
  intros Hclock. unfold process_usr.
  destruct (exceeds ARG u); [|now apply advanced_same].
  unfold try_except.
  destruct (reads_only_call_responder REST (config_get E) "config"
              ("config/workday/" +:+ fn u) w) as [Hdb1 Hst1].
  destruct (call_responder REST (config_get E) "config" _ w) as [data w1|code w1|e w1];
    simpl in Hdb1, Hst1.
  2: { now apply advanced_same. }
  2: { destruct (is_HTTPError e); [|now apply advanced_same].
       destruct (reads_only_terminate_program (A:=unit)
                   (Some (LogNotInWorkday (fn u))) w1) as [Hdb2 Hst2].
       apply advanced_same; [congruence|lia]. }
  unfold mbind at 1, M_bind at 1.
  destruct (reads_only_notify_allowed E (fn u) (default PNone data) w1) as [Hdb2 Hst2].
  destruct (notify_allowed E (fn u) (default PNone data) w1) as [allowed w2|code w2|e w2]
    eqn:Hn; simpl in Hdb2, Hst2.
  2, 3: apply advanced_same; simpl; [congruence|lia].
  destruct allowed; simpl; [|apply advanced_same; simpl; [congruence|lia]].
  destruct (WRITE ARG); [|apply advanced_same; simpl; [congruence|lia]].
  unfold mbind, M_bind.
  destruct (getitem (default PNone data) "config") as [e|config]; simpl;
    [apply advanced_same; simpl; [congruence|lia]|].
  match goal with
  | |- advanced _ _ (final (generate_email _ _ _ _ _ ?x)) => set (w3 := x)
  end.
  destruct (generate_email_final E ARG (fn u) config (rec_aggrs_size_hum u) w3)
    as [Hst3 [Hdb3|[Hdb3 Hst3']]].
  - apply advanced_same; [rewrite Hdb3; simpl; congruence|simpl in Hst3; lia].
  - split; [simpl in Hst3; lia|].
    intros userid doc Hl. rewrite Hdb3.
    destruct (String.eqb_spec userid (fn u)) as [->|Hne].
    + eexists. split; [apply lookup_doc_upsert_eq; reflexivity|].
      right. simpl.
      destruct (notify_allowed_true_inv _ _ _ _ _ Hn) as (_ & _ & Hold).
      rewrite Hdb1 in Hold. specialize (Hold doc Hl).
      assert (Hback := Hclock (S (steps w1)) (S (steps w2)) ltac:(lia)).
      split; [lia|].
      exists (S (steps w2)). split; [|reflexivity].
      rewrite Hst3'. simpl. lia.
    + exists doc. split; [|now left].
      rewrite lookup_doc_upsert_ne; [|reflexivity|exact Hne].
      simpl. rewrite Hdb2, Hdb1. exact Hl.
Qed.

Lemma for_each_advanced E ARG REST rows w :
  steady_clock E ->
  advanced E w (final (for_each rows (process_usr E ARG REST) w)).
Proof.
  intros Hclock. revert w.
  induction rows as [|u rows IH]; intros w; simpl.
  - now apply advanced_same.
  - unfold mbind, M_bind.
    pose proof (process_usr_advanced E ARG REST u w Hclock) as Hu.
    destruct (process_usr E ARG REST u w) as [[] w1|code w1|e w1]; simpl in Hu;
      try exact Hu.
    eapply advanced_trans; [exact Hu|apply IH].
Qed.

Lemma process_usage_advanced E ARG REST w :
  steady_clock E -> advanced E w (final (process_usage E ARG REST w)).
Proof.
  intros Hclock. unfold process_usage, mbind, M_bind.
  destruct (reads_only_call_responder REST (starfish_get E) "starfish"
              (starfish_query REST (GROUP ARG)) w) as [Hdb Hst].
  destruct (call_responder REST (starfish_get E) "starfish" _ w) as [resp w1|code w1|e w1];
    simpl in Hdb, Hst; try now apply advanced_same.
  destruct resp as [rows|]; [|now apply advanced_same].
  eapply advanced_trans; [|apply for_each_advanced; exact Hclock].
  now apply advanced_same.
Qed.

Lemma monotone_clock_steady E : monotone_clock E -> steady_clock E.
Proof. intros H i j Hij. specialize (H i j Hij). lia. Qed.

(** C8: provided the clock never falls back by more than a day within a
    run, a run leaves every document of [overage] in place, either
    untouched or with [notified] moved forward to a reading of the clock
    taken during the run; so over any sequence of runs a user's document
    stays and its [notified] never decreases. *)
Theorem notified_never_decreases
    (cfgs : list (env * args * rest_services)) (coll : list overage) :
  Forall (fun cfg => steady_clock (fst (fst cfg))) cfgs ->
  (forall E ARG REST w,
     In (E, ARG, REST) cfgs ->
     advanced E w (final (process_usage E ARG REST w))) /\
  (forall userid doc,
     lookup_doc userid coll = Some doc ->
     exists doc',
       lookup_doc userid (runs cfgs coll) = Some doc' /\
       notified doc <= notified doc').
Proof.
  intros Hall. split.
  - intros E ARG REST w Hin.
    apply process_usage_advanced.
    exact (proj1 (List.Forall_forall _ _) Hall _ Hin).
  - revert coll. induction Hall as [|[[E ARG] REST] cfgs Hclock _ IH];
      intros coll userid doc Hl; simpl.
    + exists doc. split; [exact Hl|lia].
    + destruct (process_usage_advanced E ARG REST (world_with coll) Hclock)
        as [_ Hadv].
      destruct (Hadv userid doc Hl) as (doc1 & Hl1 & Hd1).
      destruct (IH _ _ _ Hl1) as (doc2 & Hl2 & Hle2).
      exists doc2. split; [exact Hl2|].
      destruct Hd1 as [->|[Hle1 _]]; lia.
Qed.

(** C2: Workday answers 404 for a user above the limit, in write mode:
    the run ends normally, with exit status 0.  The user is printed in
    yellow like a user in the cooldown, nothing is logged, no mail is sent,
    and the handler that would end the program with "was not found in
    Workday" is never entered. *)
Theorem workday_not_found_is_skipped :
  let E := sample_env 1700000000000000 (Reply 404 PNone "") None None in
  let w' := {| db_overage := []; steps := 2; logged := [];
               printed := [(YELLOW, "alice", "614.4G")]; outbox := [] |} in
  exceeds sample_args alice = true /\
  process_usage E sample_args sample_rest (world_with []) = Ret tt w' /\
  main E sample_args sample_rest (world_with []) = Exit 0 w'.
Proof. vm_compute. auto. Qed.

(** ** More on [call_responder] *)


Lemma try_call_responder {A B} REST (get : nat -> string -> response A)
    server endpoint catches (handler : exn -> M B) (k : option A -> M B) w :
  try_except catches (call_responder REST get server endpoint) handler k w
  = (call_responder REST get server endpoint ≫= k) w.
Proof.
  unfold try_except, mbind, M_bind.
  destruct (call_responder REST get server endpoint w) as [a w'|code w'|e w'] eqn:Hc;
    try reflexivity.
  now apply call_responder_never_raises in Hc.
Qed.


(** ** Computations that neither print, nor send, nor write *)

Lemma silent_ret {A} (a : A) : silent (mret a).
Proof. intros w. now repeat split. Qed.

Lemma silent_raise {A} e : silent (@raise A e).
Proof. intros w. now repeat split. Qed.

Lemma silent_lift {A} (r : exn + A) : silent (lift r).
Proof. destruct r; intros w; now repeat split. Qed.

Lemma silent_LOGGER lv m : silent (LOGGER lv m).
Proof. intros w. now repeat split. Qed.

Lemma silent_bind {A B} (c : M A) (f : A -> M B) :
  silent c -> (forall a, silent (f a)) -> silent (c ≫= f).
Proof.
  intros Hc Hf w. unfold mbind, M_bind.
  destruct (Hc w) as (Hdb & Hout & Hpr & Hst).
  destruct (c w) as [a w'|code w'|e w']; simpl in *; auto.
  destruct (Hf a w') as (Hdb' & Hout' & Hpr' & Hst').
  repeat split; try congruence. lia.
Qed.

Lemma silent_try {A B} catches (c : M A) (h : exn -> M B) (k : A -> M B) :
  silent c -> (forall e, silent (h e)) -> (forall a, silent (k a)) ->
  silent (try_except catches c h k).
Proof.
  intros Hc Hh Hk w. unfold try_except.
  destruct (Hc w) as (Hdb & Hout & Hpr & Hst).
  destruct (c w) as [a w'|code w'|e w']; simpl in *; auto.
  - destruct (Hk a w') as (Hdb' & Hout' & Hpr' & Hst').
    repeat split; try congruence. lia.
  - destruct (catches e); simpl; auto.
    destruct (Hh e w') as (Hdb' & Hout' & Hpr' & Hst').
    repeat split; try congruence. lia.
Qed.

Lemma silent_if {A} (b : bool) (c1 c2 : M A) :
  silent c1 -> silent c2 -> silent (if b then c1 else c2).
Proof. now destruct b. Qed.

Lemma silent_datetime_now E : silent (datetime_now E).
Proof. intros w. simpl. repeat split. lia. Qed.

Lemma silent_find_one E u : silent (find_one E u).
Proof.
  intros w. unfold find_one.
  destruct (find_one_raises E (steps w)); simpl; repeat split; lia.
Qed.

Lemma silent_terminate_program {A} msg : silent (@terminate_program A msg).
Proof.
  unfold terminate_program. apply silent_bind.
  - destruct msg; [apply silent_if|]; auto using silent_LOGGER, silent_ret.
  - intros _ w. now repeat split.
Qed.

Lemma silent_call_responder {A} REST (get : nat -> string -> response A) s e :
  silent (call_responder REST get s e).
Proof.
  unfold call_responder. apply silent_try.
  - intros w. unfold requests_get.
    destruct (get (steps w) _); simpl; repeat split; lia.
  - intros err. apply silent_terminate_program.
  - intros [[code body] raw].
    repeat apply silent_if; try apply silent_ret.
    apply silent_bind; [apply silent_if; auto using silent_LOGGER, silent_ret|].
    intros _. apply silent_bind; [apply silent_terminate_program|].
    intros _. apply silent_ret.
Qed.

Lemma silent_notify_allowed E u work : silent (notify_allowed E u work).
Proof.
  unfold notify_allowed.
  apply silent_if; [apply silent_ret|].
  apply silent_bind; [apply silent_lift|]. intros has_config.
  apply silent_if; [apply silent_ret|].
  apply silent_bind; [apply silent_lift|]. intros config.
  apply silent_bind; [apply silent_lift|]. intros active.
  apply silent_if; [apply silent_ret|].
  apply silent_try.
  - apply silent_find_one.
  - intros err. apply silent_terminate_program.
  - intros [doc|]; [|apply silent_ret].
    apply silent_bind; [apply silent_datetime_now|]. intros now.
    apply silent_bind; [|intros _; apply silent_ret].
    apply silent_if; [apply silent_LOGGER|apply silent_ret].
Qed.

Lemma silent_get_config {A} (answer : nat -> exn + A) : silent (get_config answer).
Proof.
  intros w. unfold get_config.
  destruct (answer (steps w)); simpl; repeat split; lia.
Qed.

Lemma silent_connect_database ST d : silent (connect_database ST d).
Proof.
  intros w. unfold connect_database.
  destruct (connect_database_raises ST (steps w)); simpl; repeat split; lia.
Qed.

Lemma silent_initialize_program ST REST : silent (initialize_program ST REST).
Proof.
  unfold initialize_program.
  apply silent_bind.
  { apply silent_if; [apply silent_terminate_program|apply silent_ret]. }
  intros _. apply silent_bind.
  { apply silent_if; [|apply silent_ret].
    apply silent_bind; [apply silent_lift|]. intros token.
    apply silent_bind; [apply silent_lift|]. intros part.
    apply silent_bind; [apply silent_call_responder|].
    intros [d|]; [apply silent_LOGGER|apply silent_raise]. }
  intros _. apply silent_try.
  - apply silent_get_config.
  - intros err. apply silent_terminate_program.
  - intros dbconfig. simpl. apply silent_bind; [|intros DB; apply silent_ret].
    unfold connect_source.
    apply silent_bind; [apply silent_lift|]. intros d.
    apply silent_bind; [apply silent_LOGGER|]. intros _.
    apply silent_try.
    + apply silent_connect_database.
    + intros err. apply silent_terminate_program.
    + intros conn. apply silent_ret.
Qed.

(** ** More on [generate_email] *)

Lemma generate_email_effect E ARG userid work consumed w :
  let w' := final (generate_email E ARG userid work consumed w) in
  printed w' = printed w /\
  (steps w <= steps w')%nat /\
  ((db_overage w' = db_overage w /\ outbox w' = outbox w) \/
   (exists first addr,
      outbox w' = outbox w ++ [mail_for ARG first addr consumed] /\
      (db_overage w' = db_overage w \/
       db_overage w' =
         upsert userid {| userId := userid; doc_size := consumed;
                          notified := now_at E (S (steps w)) |} (db_overage w)))).
Proof.
  unfold generate_email, mbind, M_bind.
  destruct (getitem work "first") as [e|first]; simpl; [auto 6|].
  unfold try_except.
  destruct (getitem work "email") as [e|addr]; simpl; [auto 6|].
  unfold send_email. simpl.
  destruct (send_email_raises E (steps w)) as [e|]; simpl.
  { split; [reflexivity|]. split; [lia|]. auto. }
  unfold update_one. simpl.
  destruct (update_one_raises E (S (S (steps w)))) as [e|]; simpl.
  - split; [reflexivity|]. split; [lia|]. right. exists first, addr. auto.
  - split; [reflexivity|]. split; [lia|]. right. exists first, addr. auto.
Qed.



(** X4: The two keys [generate_email] reads are not treated alike: without
    ['first'] the [KeyError] leaves the function (the message is built
    outside the [try]); without ['email'] the [KeyError] is caught, logged
    as an error, and the function returns.  Either way no mail is sent and
    nothing is written. *)
Theorem generate_email_missing_keys (E : env) (ARG : args) (userid : string)
    (d : gmap string pyval) (consumed : string) (w : world) :
  (d !! "first" = None ->
   generate_email E ARG userid (PDict d) consumed w = Raise (KeyError "first") w) /\
  (forall first, d !! "first" = Some first -> d !! "email" = None ->
   generate_email E ARG userid (PDict d) consumed w =
   Ret tt {| db_overage := db_overage w; steps := steps w;
             logged := logged w ++ [(ERROR, LogExn (KeyError "email"))];
             printed := printed w; outbox := outbox w |}).
Proof.
  split.
  - intros Hf. unfold generate_email, mbind, M_bind. simpl. now rewrite Hf.
  - intros first Hf He. unfold generate_email, mbind, M_bind, try_except. simpl.
    rewrite Hf. simpl. now rewrite He.
Qed.


(** ** More on [notify_allowed] *)

(** X6: A failing [find_one] ends the program: for an active user the error is
    logged as critical and the exit status is -1; in the loop, nothing is
    printed for that row and the rows after it are not processed. *)
Theorem lookup_failure_is_fatal (E : env) (ARG : args) (REST : rest_services)
    (u : usr) (data config : pyval) (raw : string) (err : exn) (w : world) :
  exceeds ARG u = true ->
  config_get E (steps w) (url REST "config" +:+ "config/workday/" +:+ fn u)
    = Reply 200 data raw ->
  getitem data "config" = inr config ->
  getitem config "active" = inr (PStr "Y") ->
  find_one_raises E (S (steps w)) = Some err ->
  let w' := {| db_overage := db_overage w; steps := S (S (steps w));
               logged := logged w ++ [(CRITICAL, LogExn err)];
               printed := printed w; outbox := outbox w |} in
  notify_allowed E (fn u) data (tick w) = Exit (-1) w' /\
  forall rest,
    for_each (u :: rest) (process_usr E ARG REST) w = Exit (-1) w'.
Proof.
  intros Hx Hget Hc Ha Hf w'.
  assert (Hn : notify_allowed E (fn u) data (tick w) = Exit (-1) w').
  { rewrite (notify_allowed_active _ _ _ _ _ Hc Ha). simpl. now rewrite Hf. }
  split; [exact Hn|].
  intros rest. cbn [for_each]. unfold mbind at 1, M_bind at 1.
  unfold process_usr. rewrite Hx. unfold try_except.
  rewrite (call_responder_200 _ _ _ _ _ _ _ Hget). simpl.
  unfold mbind, M_bind. now rewrite Hn.
Qed.

(** X7: In the cooldown, the warning logged by [notify_allowed] tells the
    time left to the second: with [s] whole seconds elapsed since the
    notification, it reports [86400 - s], a value in (0, 86400]. *)
Theorem cooldown_warning_reports_time_left (E : env) (userid : string)
    (work config : pyval) (doc : overage) (w : world) :
  getitem work "config" = inr config ->
  getitem config "active" = inr (PStr "Y") ->
  find_one_raises E (steps w) = None ->
  lookup_doc userid (db_overage w) = Some doc ->
  let T := notified doc in
  let now := now_at E (S (steps w)) in
  T <= now < T + 24 * 3600 * 1000000 ->
  let left := 86400 - (now - T) / 1000000 in
  notify_allowed E userid work w =
  Ret false {| db_overage := db_overage w; steps := S (S (steps w));
               logged := logged w ++ [(WARNING, LogCooldown userid left)];
               printed := printed w; outbox := outbox w |} /\
  0 < left <= 86400.
Proof.
  intros Hc Ha Hf Hl T now Hnow left.
  assert (Hs : 0 <= (now - T) / 1000000 < 86400).
  { split; [apply Z.div_pos; lia|apply Z.div_lt_upper_bound; lia]. }
  split; [|unfold left; lia].
  rewrite (notify_allowed_active _ _ _ _ _ Hc Ha), Hf, Hl.
  cbn [datetime_sub days seconds]. fold T now.
  rewrite (Z.div_small _ 86400 Hs), (Z.mod_small _ 86400 Hs). reflexivity.
Qed.

(** X8: A document dated after the clock (the clock was set back, or another
    machine wrote it) keeps the user in the cooldown, but the time the
    warning reports is computed from [delta.seconds] alone: it is at most a
    day, while the real wait is more than a day. *)
Theorem cooldown_warning_for_future_record (E : env) (userid : string)
    (work config : pyval) (doc : overage) (w : world) :
  getitem work "config" = inr config ->
  getitem config "active" = inr (PStr "Y") ->
  find_one_raises E (steps w) = None ->
  lookup_doc userid (db_overage w) = Some doc ->
  let T := notified doc in
  let now := now_at E (S (steps w)) in
  now < T ->
  let left := 86400 - ((now - T) / 1000000) mod 86400 in
  notify_allowed E userid work w =
  Ret false {| db_overage := db_overage w; steps := S (S (steps w));
               logged := logged w ++ [(WARNING, LogCooldown userid left)];
               printed := printed w; outbox := outbox w |} /\
  0 < left <= 86400 /\
  86400 * 1000000 < T + 24 * 3600 * 1000000 - now.
Proof.
  intros Hc Ha Hf Hl T now Hnow left.
  assert (Hm := Z.mod_pos_bound ((now - T) / 1000000) 86400 ltac:(lia)).
  split; [|split; [unfold left; lia|lia]].
  rewrite (notify_allowed_active _ _ _ _ _ Hc Ha), Hf, Hl.
  cbn [datetime_sub days seconds]. fold T now.
  assert (Hd : (now - T) / 1000000 / 86400 < 1).
  { rewrite Z.div_div by lia. apply Z.div_lt_upper_bound; lia. }
  apply Z.ltb_lt in Hd as Hd1. apply Z.leb_gt in Hd as Hd2.
  rewrite Hd1, Hd2. reflexivity.
Qed.

(** ** What a run may change *)

Lemma process_usr_effect E ARG REST u w :
  row_effect ARG u w (process_usr E ARG REST u w).
Proof.
  unfold process_usr.
  destruct (exceeds ARG u) eqn:Hx.
  2: { unfold row_effect. rewrite Hx. simpl. split; [lia|]. split; [|auto].
       left. exists GREEN. split; [reflexivity|]. now split. }
  assert (Hcol : forall c, c <> GREEN -> c = GREEN <-> exceeds ARG u = false).
  { intros c Hc. rewrite Hx. split; [intros ->; now destruct Hc|discriminate]. }
  rewrite try_call_responder.
  destruct (silent_call_responder REST (config_get E) "config"
              ("config/workday/" +:+ fn u) w) as (Hdb1 & Hout1 & Hpr1 & Hst1).
  destruct (call_responder REST (config_get E) "config" _ w) as [data w1|code w1|e w1]
    eqn:Hc; simpl in Hdb1, Hout1, Hpr1, Hst1.
  2: { rewrite (bind_Exit _ _ _ _ _ Hc). unfold row_effect. simpl. auto 6. }
  2: { rewrite (bind_Raise _ _ _ _ _ Hc). unfold row_effect. simpl. auto 6. }
  rewrite (bind_Ret _ _ _ _ _ Hc).
  destruct (silent_notify_allowed E (fn u) (default PNone data) w1)
    as (Hdb2 & Hout2 & Hpr2 & Hst2).
  destruct (notify_allowed E (fn u) (default PNone data) w1) as [allowed w2|code w2|e w2]
    eqn:Hn; simpl in Hdb2, Hout2, Hpr2, Hst2.
  2: { rewrite (bind_Exit _ _ _ _ _ Hn). unfold row_effect. simpl.
       split; [lia|]. split; [right|left]; split; congruence. }
  2: { rewrite (bind_Raise _ _ _ _ _ Hn). unfold row_effect. simpl.
       split; [lia|]. split; [right|left]; split; congruence. }
  rewrite (bind_Ret _ _ _ _ _ Hn).
  destruct allowed; cbn [negb].
  2: { unfold row_effect. simpl.
       split; [lia|]. split; [|left; split; congruence].
       left. exists YELLOW. split; [congruence|now apply Hcol]. }
  rewrite (bind_Ret (print RED (fn u) (rec_aggrs_size_hum u)) _ w2 tt _ eq_refl).
  match goal with
  | |- row_effect _ _ _ (_ ?x) => set (w3 := x)
  end.
  assert (Hred : exists c, printed w3 = printed w ++ [(c, fn u, rec_aggrs_size_hum u)] /\
                   (c = GREEN <-> exceeds ARG u = false)).
  { exists RED. subst w3. simpl. split; [congruence|now apply Hcol]. }
  assert (Hdb3 : db_overage w3 = db_overage w) by (subst w3; simpl; congruence).
  assert (Hout3 : outbox w3 = outbox w) by (subst w3; simpl; congruence).
  assert (Hpr3 : printed w3 = printed w ++ [(RED, fn u, rec_aggrs_size_hum u)])
    by (subst w3; simpl; congruence).
  assert (Hst3 : (steps w <= steps w3)%nat) by (subst w3; simpl; lia).
  clearbody w3.
  destruct (WRITE ARG) eqn:Hw.
  2: { unfold row_effect. simpl. auto. }
  destruct (getitem (default PNone data) "config") as [e|config] eqn:Hg.
  { unfold row_effect, mbind, M_bind. simpl. auto. }
  unfold mbind, M_bind. simpl.
  destruct (generate_email_effect E ARG (fn u) config (rec_aggrs_size_hum u) w3)
    as (Hpr4 & Hst4 & Heff).
  unfold row_effect. cbv zeta.
  split; [lia|]. split.
  { left. rewrite Hpr4. exact Hred. }
  destruct Heff as [[Hdb4 Hout4]|(first & addr & Hout4 & Hdb4)].
  - left. split; congruence.
  - right. split; [exact Hw|]. split; [exact Hx|].
    split; [congruence|].
    exists first, addr. split; [congruence|].
    destruct Hdb4 as [Hdb4|Hdb4]; [left; congruence|].
    right. exists (now_at E (S (steps w3))). rewrite Hdb4, Hdb3. reflexivity.
Qed.

Lemma final_bind {A B} (c : M A) (f : A -> M B) w :
  final ((c ≫= f) w) =
  match c w with
  | Ret a w' => final (f a w')
  | Exit _ w' | Raise _ w' => w'
  end.
Proof. unfold mbind, M_bind. now destruct (c w). Qed.

(** A relation between the world before and the world after that holds of
    every turn of the loop holds of the loop. *)
Lemma for_each_final_rel (R : world -> world -> Prop) {A} (l : list A) body :
  (forall w, R w w) ->
  (forall w1 w2 w3, R w1 w2 -> R w2 w3 -> R w1 w3) ->
  (forall x w, In x l -> R w (final (body x w))) ->
  forall w, R w (final (for_each l body w)).
Proof.
  intros Hrefl Htrans. induction l as [|x l IH]; intros Hbody w; simpl.
  - apply Hrefl.
  - rewrite final_bind.
    pose proof (Hbody x w (or_introl eq_refl)) as Hx.
    destruct (body x w) as [[] w1|code w1|e w1]; simpl in Hx; try exact Hx.
    eapply Htrans; [exact Hx|].
    apply IH. intros y w' Hy. apply Hbody. now right.
Qed.

Lemma process_usage_final_rel (R : world -> world -> Prop) E ARG REST :
  (forall w w', db_overage w' = db_overage w -> outbox w' = outbox w ->
                printed w' = printed w -> R w w') ->
  (forall w1 w2 w3, R w1 w2 -> R w2 w3 -> R w1 w3) ->
  (forall u w, R w (final (process_usr E ARG REST u w))) ->
  forall w, R w (final (process_usage E ARG REST w)).
Proof.
  intros Hsilent Htrans Hrow w. unfold process_usage. rewrite final_bind.
  destruct (silent_call_responder REST (starfish_get E) "starfish"
              (starfish_query REST (GROUP ARG)) w) as (Hdb & Hout & Hpr & _).
  destruct (call_responder REST (starfish_get E) "starfish" _ w) as [resp w1|code w1|e w1];
    simpl in Hdb, Hout, Hpr; try now apply Hsilent.
  destruct resp as [rows|]; [|now apply Hsilent].
  apply (Htrans w w1); [now apply Hsilent|].
  apply for_each_final_rel; auto.
Qed.

Lemma process_usage_rows E ARG REST rows raw w :
  starfish_get E (steps w) (url REST "starfish" +:+ starfish_query REST (GROUP ARG))
    = Reply 200 rows raw ->
  process_usage E ARG REST w = for_each rows (process_usr E ARG REST) (tick w).
Proof.
  intros Hget. unfold process_usage, mbind, M_bind.
  now rewrite (call_responder_200 _ _ _ _ _ _ _ Hget).
Qed.

Lemma map_userId_upsert userid payload coll :
  userId payload = userid ->
  map userId (upsert userid payload coll) =
  if existsb (fun r => String.eqb (userId r) userid) coll
  then map userId coll else map userId coll ++ [userid].
Proof.
  intros Hp. induction coll as [|r coll IH]; simpl.
  - now rewrite Hp.
  - destruct (String.eqb (userId r) userid) eqn:Hr; simpl.
    + apply String.eqb_eq in Hr. now rewrite Hp, Hr.
    + rewrite IH. now destruct (existsb _ coll).
Qed.

Lemma upsert_NoDup userid payload coll :
  userId payload = userid ->
  List.NoDup (map userId coll) -> List.NoDup (map userId (upsert userid payload coll)).
Proof.
  intros Hp Hnd. rewrite (map_userId_upsert _ _ _ Hp).
  destruct (existsb _ coll) eqn:Hex; [exact Hnd|].
  apply List.NoDup_app; [exact Hnd|repeat constructor; now intros []|].
  intros x Hin [Hx|[]]. subst x.
  apply List.in_map_iff in Hin as (r & Hr & Hin).
  assert (Ht : existsb (fun r => String.eqb (userId r) userid) coll = true).
  { apply List.existsb_exists. exists r. split; [exact Hin|].
    now apply String.eqb_eq. }
  congruence.
Qed.

Lemma In_upsert d userid payload coll :
  In d (upsert userid payload coll) -> d = payload \/ In d coll.
Proof.
  induction coll as [|r coll IH]; simpl.
  - intros [<-|[]]. now left.
  - destruct (String.eqb (userId r) userid); simpl.
    + intros [<-|Hin]; auto.
    + intros [<-|Hin]; auto. destruct (IH Hin); auto.
Qed.

(** X10: The collection keeps one document per user: if no two documents share
    a [userId] before a run, none do after it, however the run ends. *)
Theorem run_keeps_one_document_per_user (E : env) (ARG : args)
    (REST : rest_services) (w : world) :
  List.NoDup (map userId (db_overage w)) ->
  List.NoDup (map userId (db_overage (final (process_usage E ARG REST w)))).
Proof.
  revert w.
  apply (process_usage_final_rel
           (fun w w' => List.NoDup (map userId (db_overage w)) ->
                        List.NoDup (map userId (db_overage w')))).
  - intros w w' Hdb _ _. now rewrite Hdb.
  - auto.
  - intros u w Hnd.
    destruct (process_usr_effect E ARG REST u w) as (_ & _ & Heff).
    destruct Heff as [[Hdb _]|(_ & _ & _ & first & addr & _ & [Hdb|[t Hdb]])];
      rewrite Hdb; auto.
    now apply upsert_NoDup.
Qed.

(** X11: Without [--write] a run is a dry run: whatever the services answer and
    however it ends, no mail is sent and the collection is not written. *)
Theorem dry_run_changes_nothing (E : env) (ARG : args) (REST : rest_services)
    (w : world) :
  WRITE ARG = false ->
  db_overage (final (process_usage E ARG REST w)) = db_overage w /\
  outbox (final (process_usage E ARG REST w)) = outbox w.
Proof.
  intros Hw. revert w.
  apply (process_usage_final_rel
           (fun w w' => db_overage w' = db_overage w /\ outbox w' = outbox w)).
  - auto.
  - intros w1 w2 w3 [] []. split; congruence.
  - intros u w.
    destruct (process_usr_effect E ARG REST u w) as (_ & _ & [Heff|(Hw' & _)]);
      [exact Heff|congruence].
Qed.

(** X12: The collection is written only after a mail has gone out: the outbox
    only grows during a run, every mail added is a disk space warning from
    [SENDER] to a single receiver quoting [ARG.LIMIT], and if none was added
    the collection is as before. *)
Theorem ledger_changes_only_with_mail (E : env) (ARG : args) (REST : rest_services)
    (w : world) :
  exists mails,
    outbox (final (process_usage E ARG REST w)) = outbox w ++ mails /\
    Forall (fun m => mail_sender m = SENDER /\
                     mail_subject m = "Disk space warning" /\
                     mail_limit m = LIMIT ARG /\
                     length (mail_receivers m) = 1%nat) mails /\
    (mails = [] -> db_overage (final (process_usage E ARG REST w)) = db_overage w).
Proof.
  revert w.
  apply (process_usage_final_rel
           (fun w w' => exists mails,
              outbox w' = outbox w ++ mails /\
              Forall (fun m => mail_sender m = SENDER /\
                               mail_subject m = "Disk space warning" /\
                               mail_limit m = LIMIT ARG /\
                               length (mail_receivers m) = 1%nat) mails /\
              (mails = [] -> db_overage w' = db_overage w))).
  - intros w w' Hdb Hout _. exists []. rewrite app_nil_r. auto.
  - intros w1 w2 w3 (m1 & Ho1 & Hf1 & Hd1) (m2 & Ho2 & Hf2 & Hd2).
    exists (m1 ++ m2). split; [rewrite Ho2, Ho1; symmetry; apply List.app_assoc|].
    split; [now apply Forall_app|].
    intros [-> ->]%app_eq_nil. rewrite Hd2, Hd1; auto.
  - intros u w.
    destruct (process_usr_effect E ARG REST u w)
      as (_ & _ & [[Hdb Hout]|(_ & _ & _ & first & addr & Hout & _)]).
    + exists []. rewrite app_nil_r. auto.
    + exists [mail_for ARG first addr (rec_aggrs_size_hum u)].
      split; [exact Hout|]. split; [|discriminate].
      repeat constructor.
Qed.

(** X13: A run writes documents only for rows of the Starfish answer that are
    above the limit, and only in write mode: every document of the
    collection after the run was there before, or is the document of such a
    row. *)
Theorem ledger_records_only_flagged_rows (E : env) (ARG : args)
    (REST : rest_services) (rows : list usr) (raw : string) (w : world) :
  starfish_get E (steps w) (url REST "starfish" +:+ starfish_query REST (GROUP ARG))
    = Reply 200 rows raw ->
  forall doc,
    In doc (db_overage (final (process_usage E ARG REST w))) ->
    In doc (db_overage w) \/
    exists u t,
      In u rows /\ exceeds ARG u = true /\ WRITE ARG = true /\ doc = doc_for u t.
Proof.
  intros Hget. rewrite (process_usage_rows _ _ _ _ _ _ Hget).
  change (db_overage w) with (db_overage (tick w)).
  generalize (tick w). clear w Hget.
  apply (for_each_final_rel
           (fun w w' => forall doc, In doc (db_overage w') ->
              In doc (db_overage w) \/
              exists u t, In u rows /\ exceeds ARG u = true /\
                          WRITE ARG = true /\ doc = doc_for u t)).
  - auto.
  - intros w1 w2 w3 H12 H23 doc Hin.
    destruct (H23 doc Hin) as [Hin2|Hnew]; auto.
  - intros u w Hu doc Hin.
    destruct (process_usr_effect E ARG REST u w) as (_ & _ & Heff).
    destruct Heff as [[Hdb _]|(Hw & Hx & _ & first & addr & _ & [Hdb|[t Hdb]])];
      rewrite Hdb in Hin; auto.
    apply In_upsert in Hin as [->|Hin]; [|auto].
    right. exists u, t. auto.
Qed.

Lemma for_each_mails E ARG REST rows w :
  exists mails,
    outbox (final (for_each rows (process_usr E ARG REST) w)) = outbox w ++ mails /\
    (length mails <= length (List.filter (exceeds ARG) rows))%nat.
Proof.
  revert w. induction rows as [|u rows IH]; intros w.
  - exists []. simpl. rewrite app_nil_r. auto.
  - cbn [for_each]. rewrite final_bind.
    destruct (process_usr_effect E ARG REST u w) as (_ & _ & Heff).
    assert (Hu : exists m1,
               outbox (final (process_usr E ARG REST u w)) = outbox w ++ m1 /\
               (length m1 <= length (List.filter (exceeds ARG) [u]))%nat).
    { destruct Heff as [[_ Hout]|(_ & Hx & _ & first & addr & Hout & _)].
      - exists []. rewrite app_nil_r. split; [exact Hout|simpl; lia].
      - eexists. split; [exact Hout|]. simpl. rewrite Hx. simpl. lia. }
    destruct Hu as (m1 & Hout1 & Hlen1).
    assert (Hcons : length (List.filter (exceeds ARG) (u :: rows))
                    = (length (List.filter (exceeds ARG) [u])
                       + length (List.filter (exceeds ARG) rows))%nat).
    { simpl. destruct (exceeds ARG u); simpl; lia. }
    destruct (process_usr E ARG REST u w) as [[] w1|code w1|e w1]; simpl in Hout1.
    + destruct (IH w1) as (m2 & Hout2 & Hlen2).
      exists (m1 ++ m2). rewrite Hout2, Hout1, <- List.app_assoc.
      split; [reflexivity|]. rewrite length_app. lia.
    + exists m1. split; [exact Hout1|lia].
    + exists m1. split; [exact Hout1|lia].
Qed.

(** X14: A run sends at most one mail per row above the limit; a batch without
    such rows sends none. *)
Theorem at_most_one_mail_per_flagged_row (E : env) (ARG : args)
    (REST : rest_services) (rows : list usr) (raw : string) (w : world) :
  starfish_get E (steps w) (url REST "starfish" +:+ starfish_query REST (GROUP ARG))
    = Reply 200 rows raw ->
  exists mails,
    outbox (final (process_usage E ARG REST w)) = outbox w ++ mails /\
    (length mails <= length (List.filter (exceeds ARG) rows))%nat.
Proof.
  intros Hget. rewrite (process_usage_rows _ _ _ _ _ _ Hget).
  apply (for_each_mails E ARG REST rows (tick w)).
Qed.

Lemma for_each_green E ARG REST rows w :
  Forall (fun u => exceeds ARG u = false) rows ->
  for_each rows (process_usr E ARG REST) w =
  Ret tt {| db_overage := db_overage w; steps := steps w; logged := logged w;
            printed := printed w
                       ++ map (fun u => (GREEN, fn u, rec_aggrs_size_hum u)) rows;
            outbox := outbox w |}.
Proof.
  intros Hall. revert w. induction Hall as [|u rows Hu _ IH]; intros w.
  - simpl. rewrite app_nil_r. now destruct w.
  - cbn [for_each]. unfold mbind at 1, M_bind at 1.
    unfold process_usr at 1. rewrite Hu. simpl.
    rewrite IH. simpl. now rewrite <- List.app_assoc.
Qed.

(** X15: When no row is above the limit, the run costs the one request to
    Starfish: Workday, the database and the mail server are not touched,
    nothing is logged, and every user is printed in green, in the order of
    the answer. *)
Theorem below_limit_batch_is_green (E : env) (ARG : args)
    (REST : rest_services) (rows : list usr) (raw : string) (w : world) :
  starfish_get E (steps w) (url REST "starfish" +:+ starfish_query REST (GROUP ARG))
    = Reply 200 rows raw ->
  Forall (fun u => exceeds ARG u = false) rows ->
  process_usage E ARG REST w =
  Ret tt {| db_overage := db_overage w; steps := S (steps w); logged := logged w;
            printed := printed w
                       ++ map (fun u => (GREEN, fn u, rec_aggrs_size_hum u)) rows;
            outbox := outbox w |}.
Proof.
  intros Hget Hall. rewrite (process_usage_rows _ _ _ _ _ _ Hget).
  now rewrite (for_each_green _ _ _ _ _ Hall).
Qed.

(** X16: A 404 from Starfish is not handled: [call_responder] returns [None]
    and the loop over it raises [TypeError]; nothing is printed or logged. *)
Theorem starfish_not_found_raises (E : env) (ARG : args)
    (REST : rest_services) (body : list usr) (raw : string) (w : world) :
  starfish_get E (steps w) (url REST "starfish" +:+ starfish_query REST (GROUP ARG))
    = Reply 404 body raw ->
  process_usage E ARG REST w = Raise TypeError (tick w).
Proof.
  intros Hget. unfold process_usage, mbind, M_bind.
  now rewrite (call_responder_404 _ _ _ _ _ _ _ Hget).
Qed.

Lemma for_each_lines E ARG REST rows w w' :
  for_each rows (process_usr E ARG REST) w = Ret tt w' ->
  exists lines,
    printed w' = printed w ++ lines /\
    Forall2 (fun line u =>
               exists c, line = (c, fn u, rec_aggrs_size_hum u) /\
                         (c = GREEN <-> exceeds ARG u = false)) lines rows.
Proof.
  revert w. induction rows as [|u rows IH]; intros w.
  - simpl. intros [= <-]. exists []. rewrite app_nil_r. split; [reflexivity|constructor].
  - cbn [for_each]. unfold mbind at 1, M_bind at 1.
    pose proof (process_usr_effect E ARG REST u w) as (_ & Hline & _).
    destruct (process_usr E ARG REST u w) as [[] w1|code w1|e w1]; try discriminate.
    simpl in Hline. intros Hrest.
    destruct Hline as [(c & Hpr & Hc)|[_ Hret]]; [|discriminate].
    destruct (IH _ Hrest) as (lines & Hpr' & Hall).
    exists ((c, fn u, rec_aggrs_size_hum u) :: lines).
    split; [rewrite Hpr', Hpr, <- List.app_assoc; reflexivity|].
    constructor; [eauto|exact Hall].
Qed.

(** X17: A run that returns has printed one line per row of the Starfish
    answer, in order, with the row's user and size; the line is green
    exactly for the rows that are not above the limit. *)
Theorem one_line_per_row (E : env) (ARG : args)
    (REST : rest_services) (rows : list usr) (raw : string) (w w' : world) :
  starfish_get E (steps w) (url REST "starfish" +:+ starfish_query REST (GROUP ARG))
    = Reply 200 rows raw ->
  process_usage E ARG REST w = Ret tt w' ->
  exists lines,
    printed w' = printed w ++ lines /\
    Forall2 (fun line u =>
               exists c, line = (c, fn u, rec_aggrs_size_hum u) /\
                         (c = GREEN <-> exceeds ARG u = false)) lines rows.
Proof.
  intros Hget. rewrite (process_usage_rows _ _ _ _ _ _ Hget).
  intros Hrun. apply (for_each_lines _ _ _ _ _ _ Hrun).
Qed.

(** ** Exit statuses *)
























(** ** Start-up *)

Lemma split_without_sep sep s :
  ~ In sep (list_ascii_of_string s) -> split sep s = [s].
Proof.
  induction s as [|c s IH]; simpl; [reflexivity|].
  intros Hnot.
  destruct (Ascii.eqb_spec c sep) as [->|Hne]; [now destruct Hnot; left|].
  rewrite IH; [reflexivity|]. intros Hin. apply Hnot. now right.
Qed.

Lemma split_at_sep sep a b :
  ~ In sep (list_ascii_of_string a) ->
  split sep (a +:+ String sep b) = a :: split sep b.
Proof.
  induction a as [|c a IH]; simpl.
  - intros _. now rewrite Ascii.eqb_refl.
  - intros Hnot.
    destruct (Ascii.eqb_spec c sep) as [->|Hne]; [now destruct Hnot; left|].
    rewrite IH; [reflexivity|]. intros Hin. apply Hnot. now right.
Qed.

(** X19: Without [STARFISH_JWT] in the environment, [initialize_program] ends
    the program at once, with status -1 and the critical message, before any
    request or connection; the script then has done nothing but load its
    REST configuration. *)
Theorem missing_token_is_fatal (ST : startup) (E : env) (ARG : args)
    (REST : rest_services) (w : world) :
  environ ST !! "STARFISH_JWT" = None ->
  let stopped w0 :=
    {| db_overage := db_overage w0; steps := steps w0;
       logged := logged w0
                 ++ [(CRITICAL,
                      LogText "Environment variable STARFISH_JWT is not defined")];
       printed := printed w0; outbox := outbox w0 |} in
  initialize_program ST REST w = Exit (-1) (stopped w) /\
  (rest_services_config ST (steps w) = inr REST ->
   script ST E ARG w = Exit (-1) (stopped (tick w))).
Proof.
  intros Htok stopped.
  assert (Hinit : forall w0, initialize_program ST REST w0 = Exit (-1) (stopped w0)).
  { intros w0. unfold initialize_program. rewrite Htok.
    rewrite bool_decide_eq_false_2 by (now intros [x Hx]). reflexivity. }
  split; [apply Hinit|].
  intros Hcfg. unfold script, try_except, get_config. rewrite Hcfg.
  unfold mbind, M_bind. now rewrite Hinit.
Qed.

(** X20: When [initialize_program] returns, the token is in the environment
    and [DB] holds exactly one connection, under ['storage'], to the
    database the configuration gives at [storage.dev.write]. *)
Theorem initialize_program_returns_connected (ST : startup) (REST : rest_services)
    (DB : gmap string connection) (w w' : world) :
  initialize_program ST REST w = Ret DB w' ->
  is_Some (environ ST !! "STARFISH_JWT") /\
  exists k dbconfig d,
    databases_config ST k = inr dbconfig /\
    dbconfig !! "storage.dev.write" = Some d /\
    DB = <["storage" := Connection d]> ∅.
Proof.
  unfold initialize_program, mbind, M_bind.
  destruct (bool_decide (is_Some (environ ST !! "STARFISH_JWT"))) eqn:Htok; simpl;
    [|discriminate].
  apply bool_decide_eq_true in Htok. intros Hrun. split; [exact Htok|].
  match type of Hrun with
  | match ?c with _ => _ end = _ =>
      destruct c as [[] w1|code1 w1|e1 w1]; try discriminate
  end.
  unfold try_except, get_config in Hrun.
  destruct (databases_config ST (steps w1)) as [e|dbconfig] eqn:Hcfg; [discriminate|].
  simpl in Hrun. unfold connect_source, mbind, M_bind in Hrun.
  unfold attrgetter in Hrun.
  change ("storage" +:+ ".dev.write") with "storage.dev.write" in Hrun.
  destruct (dbconfig !! "storage.dev.write") as [d|] eqn:Hd; simpl in Hrun;
    [|discriminate].
  unfold try_except, connect_database in Hrun. simpl in Hrun.
  destruct (connect_database_raises ST _); simpl in Hrun; [discriminate|].
  injection Hrun as <- _. eauto 6.
Qed.

(** X21: A database that cannot be reached ends the program during start-up:
    after the connection attempt is announced, the error is logged as
    critical and the status is -1. *)
Theorem database_connection_failure_is_fatal (ST : startup) (REST : rest_services)
    (token : string) (dbconfig : gmap string dbo) (d : dbo) (err : exn) (w : world) :
  environ ST !! "STARFISH_JWT" = Some token ->
  DEBUG ST = false ->
  databases_config ST (steps w) = inr dbconfig ->
  dbconfig !! "storage.dev.write" = Some d ->
  connect_database_raises ST (S (steps w)) = Some err ->
  initialize_program ST REST w =
  Exit (-1)
    {| db_overage := db_overage w; steps := S (S (steps w));
       logged := (logged w
                  ++ [(INFO, LogText ("Connecting to " +:+ name d +:+ " dev on "
                                      +:+ host d +:+ " as " +:+ user d))])
                 ++ [(CRITICAL, LogExn err)];
       printed := printed w; outbox := outbox w |}.
Proof.
  intros Htok Hdebug Hcfg Hd Hconn.
  unfold initialize_program. rewrite Htok, Hdebug.
  rewrite bool_decide_eq_true_2 by eauto.
  unfold mbind, M_bind, try_except, get_config. simpl. rewrite Hcfg. simpl.
  unfold connect_source, mbind, M_bind, attrgetter.
  change ("storage" +:+ ".dev.write") with "storage.dev.write". rewrite Hd. simpl.
  unfold try_except, connect_database. simpl. rewrite Hconn. reflexivity.
Qed.

(** X22: With [--debug], a token without a colon stops the start-up with
    [IndexError] before any request: [split(':')[1]] does not exist. *)
Theorem debug_token_without_colon (ST : startup) (REST : rest_services)
    (token : string) (w : world) :
  environ ST !! "STARFISH_JWT" = Some token ->
  DEBUG ST = true ->
  ~ In ":"%char (list_ascii_of_string token) ->
  initialize_program ST REST w = Raise (OtherException "IndexError") w.
Proof.
  intros Htok Hdebug Hcolon.
  unfold initialize_program. rewrite Htok, Hdebug.
  rewrite bool_decide_eq_true_2 by eauto.
  unfold mbind, M_bind, environ_getitem. simpl. rewrite Htok. simpl.
  now rewrite (split_without_sep _ _ Hcolon).
Qed.

(** X23: With [--debug] and a token [id:secret], Starfish is asked about
    [auth/secret]; its answer 200 is logged as a warning and the start-up
    goes on to connect the database, three interactions in all. *)
Theorem debug_checks_the_token (ST : startup) (REST : rest_services)
    (id secret raw : string) (details : auth) (dbconfig : gmap string dbo)
    (d : dbo) (w : world) :
  environ ST !! "STARFISH_JWT" = Some (id +:+ String ":" secret) ->
  ~ In ":"%char (list_ascii_of_string id) ->
  ~ In ":"%char (list_ascii_of_string secret) ->
  DEBUG ST = true ->
  auth_get ST (steps w) (url REST "starfish" +:+ "auth/" +:+ secret)
    = Reply 200 details raw ->
  databases_config ST (S (steps w)) = inr dbconfig ->
  dbconfig !! "storage.dev.write" = Some d ->
  connect_database_raises ST (S (S (steps w))) = None ->
  initialize_program ST REST w =
  Ret (<["storage" := Connection d]> ∅)
    {| db_overage := db_overage w; steps := S (S (S (steps w)));
       logged := (logged w
                  ++ [(WARNING, LogText ("Token is valid until "
                                         +:+ valid_until_hum details))])
                 ++ [(INFO, LogText ("Connecting to " +:+ name d +:+ " dev on "
                                     +:+ host d +:+ " as " +:+ user d))];
       printed := printed w; outbox := outbox w |}.
Proof.
  intros Htok Hid Hsecret Hdebug Hauth Hcfg Hd Hconn.
  unfold initialize_program. rewrite Htok, Hdebug.
  rewrite bool_decide_eq_true_2 by eauto.
  unfold mbind at 1, M_bind at 1. simpl.
  unfold mbind at 1, M_bind at 1.
  unfold mbind at 1, M_bind at 1.
  unfold environ_getitem. rewrite Htok. simpl.
  rewrite (split_at_sep _ _ _ Hid), (split_without_sep _ _ Hsecret). simpl.
  unfold mbind at 1, M_bind at 1.
  change (@mret M _ string secret w) with (Ret secret w). cbv beta iota.
  unfold mbind at 1, M_bind at 1.
  rewrite (call_responder_200 _ _ _ _ _ _ _ Hauth). simpl.
  unfold try_except, get_config. simpl. rewrite Hcfg. simpl.
  unfold connect_source, mbind, M_bind, attrgetter.
  change ("storage" +:+ ".dev.write") with "storage.dev.write". rewrite Hd. simpl.
  unfold try_except, connect_database. simpl. rewrite Hconn. reflexivity.
Qed.

(** X24: Nothing is processed unless the start-up succeeded: when the
    initialisation does not return, the script ends without having printed
    a line, sent a mail or written to the collection. *)
Theorem no_processing_without_initialization (ST : startup) (E : env) (ARG : args)
    (w : world) :
  (forall REST w1,
     get_config (rest_services_config ST) w = Ret REST w1 ->
     is_Ret (initialize_program ST REST w1) = false) ->
  let w' := final (script ST E ARG w) in
  db_overage w' = db_overage w /\ outbox w' = outbox w /\ printed w' = printed w.
Proof.
  intros Hinit. unfold script, try_except.
  destruct (silent_get_config (rest_services_config ST) w) as (Hdb & Hout & Hpr & _).
  destruct (get_config (rest_services_config ST) w) as [REST w1|code1 w1|e1 w1];
    simpl in Hdb, Hout, Hpr.
  2: { simpl. auto. }
  2: { unfold terminate_program, mbind, M_bind. simpl. auto. }
  specialize (Hinit REST w1 eq_refl).
  destruct (silent_initialize_program ST REST w1) as (Hdb1 & Hout1 & Hpr1 & _).
  unfold mbind, M_bind.
  destruct (initialize_program ST REST w1) as [DB w2|code2 w2|e2 w2];
    [discriminate| |]; simpl in *; repeat split; congruence.
Qed.

(** ** The statements at sample inputs *)

Lemma notify_allowed_absent_or_inactive_witness :
  notify_allowed (sample_env 1700000000000000 (Reply 200 alice_work "") None None)
    "dave" (work_with_active (PStr "N")) (world_with [alice_doc 0])
  = Ret false (world_with [alice_doc 0]).
Proof.
  apply notify_allowed_absent_or_inactive.
  right; right. exists (PDict {[ "active" := PStr "N" ]}), (PStr "N").
  split; [vm_compute; reflexivity|].
  split; [vm_compute; reflexivity|discriminate].
Defined.

Lemma notify_allowed_never_notified_witness :
  notify_allowed (sample_env 1700000000000000 (Reply 200 alice_work "") None None)
    "alice" alice_work (world_with [])
  = Ret true (tick (world_with [])).
Proof.
  apply (notify_allowed_never_notified _ _ _ alice_config);
    vm_compute; reflexivity.
Defined.

Lemma notify_allowed_cooldown_witness :
  returns
    (notify_allowed (sample_env 1700000000000000 (Reply 200 alice_work "") None None)
       "alice" alice_work)
    (world_with [alice_doc 1699913600000001]) true /\
  returns
    (notify_allowed (sample_env 1700000000000000 (Reply 200 alice_work "") None None)
       "alice" alice_work)
    (world_with [alice_doc 1699913600000002]) false.
Proof.
  split.
  - refine (proj1 (proj2 (proj2 (proj2
      (notify_allowed_cooldown
         (sample_env 1700000000000000 (Reply 200 alice_work "") None None)
         "alice" alice_work alice_config (alice_doc 1699913600000001)
         (world_with [alice_doc 1699913600000001])
         1699913600000001 1700000000000001 _ _ _ _ _ _)))) _);
      try (vm_compute; reflexivity).
    lia.
  - refine (proj1 (proj2 (proj2
      (notify_allowed_cooldown
         (sample_env 1700000000000000 (Reply 200 alice_work "") None None)
         "alice" alice_work alice_config (alice_doc 1699913600000002)
         (world_with [alice_doc 1699913600000002])
         1699913600000002 1700000000000001 _ _ _ _ _ _))) _);
      try (vm_compute; reflexivity).
    lia.
Defined.

Lemma notify_allowed_needs_active_Y_witness :
  let E := sample_env 1700000000000000 (Reply 200 alice_work "") None None in
  let w := world_with [] in
  notify_allowed E "alice" (work_with_active (PBool true)) w = Ret false w /\
  notify_allowed E "alice" (work_with_active (PStr "y")) w = Ret false w /\
  notify_allowed E "alice" (work_with_active (PStr "Yes")) w = Ret false w /\
  notify_allowed E "alice" (PDict {[ "first" := PStr "Alice" ]}) w = Ret false w.
Proof.
  intros E w.
  split; [|split; [|split]].
  - refine (proj1 (proj1 (proj2 (notify_allowed_needs_active_Y E "alice"
              (work_with_active (PBool true)) w))
              (PDict {[ "active" := PBool true ]}) (PBool true) _ _ _));
      [vm_compute; reflexivity|vm_compute; reflexivity|discriminate].
  - refine (proj1 (proj1 (proj2 (notify_allowed_needs_active_Y E "alice"
              (work_with_active (PStr "y")) w))
              (PDict {[ "active" := PStr "y" ]}) (PStr "y") _ _ _));
      [vm_compute; reflexivity|vm_compute; reflexivity|discriminate].
  - refine (proj1 (proj1 (proj2 (notify_allowed_needs_active_Y E "alice"
              (work_with_active (PStr "Yes")) w))
              (PDict {[ "active" := PStr "Yes" ]}) (PStr "Yes") _ _ _));
      [vm_compute; reflexivity|vm_compute; reflexivity|discriminate].
  - refine (proj1 (proj2 (proj2 (notify_allowed_needs_active_Y E "alice"
              (PDict {[ "first" := PStr "Alice" ]}) w))
              {[ "first" := PStr "Alice" ]} _ _));
      [reflexivity|vm_compute; reflexivity].
Defined.

Lemma exceeds_strict_witness :
  exceeds sample_args
    {| fn := "bob"; rec_aggrs_size := 549755813888; rec_aggrs_size_hum := "512G" |}
  = false /\
  exceeds sample_args
    {| fn := "bob"; rec_aggrs_size := 549755813889; rec_aggrs_size_hum := "512G" |}
  = true.
Proof.
  split.
  - refine (proj1 (proj2 (proj2
      (exceeds_strict
         (sample_env 0 (Reply 404 PNone "") None None) sample_args sample_rest
         {| fn := "bob"; rec_aggrs_size := 549755813888;
            rec_aggrs_size_hum := "512G" |}))) _).
    vm_compute. reflexivity.
  - refine (proj1 (proj2 (proj2 (proj2
      (exceeds_strict
         (sample_env 0 (Reply 404 PNone "") None None) sample_args sample_rest
         {| fn := "bob"; rec_aggrs_size := 549755813889;
            rec_aggrs_size_hum := "512G" |})))) _).
    vm_compute. reflexivity.
Defined.

Lemma send_failure_is_logged_not_fatal_witness :
  let E := sample_env 1700000000000000 (Reply 200 alice_work "")
             (Some (OtherException "SMTPServerDisconnected")) None in
  exists w',
    process_usr E sample_args sample_rest alice (world_with []) = Ret tt w' /\
    logged w' = [(INFO, LogSending (PStr "alice@janelia.hhmi.org"));
                 (ERROR, LogExn (OtherException "SMTPServerDisconnected"))] /\
    outbox w' = [] /\
    db_overage w' = [].
Proof.
  intros E.
  destruct (send_failure_is_logged_not_fatal E sample_args sample_rest alice
              alice_work alice_config (PStr "Alice") (PStr "alice@janelia.hhmi.org")
              "" (OtherException "SMTPServerDisconnected")
              (world_with []) (tick (tick (world_with []))))
    as (w' & Hrun & Hlog & Hout & Hdb & _);
    try (vm_compute; reflexivity).
  exists w'. auto.
Defined.

Lemma ledger_write_failure_is_fatal_witness :
  let E := sample_env 1700000000000000 (Reply 200 alice_work "")
             None (Some (OtherException "ServerSelectionTimeoutError")) in
  exists w',
    process_usr E sample_args sample_rest alice (world_with []) = Exit (-1) w' /\
    for_each [alice; alice] (process_usr E sample_args sample_rest) (world_with [])
    = Exit (-1) w'.
Proof.
  intros E.
  destruct (ledger_write_failure_is_fatal E sample_args sample_rest alice
              alice_work alice_config (PStr "Alice") (PStr "alice@janelia.hhmi.org")
              "" (OtherException "ServerSelectionTimeoutError")
              (world_with []) (tick (tick (world_with []))))
    as (w' & Hrun & _ & Hloop);
    try (vm_compute; reflexivity).
  exists w'. split; [exact Hrun|].
  apply (Hloop [] [alice] (world_with [])). reflexivity.
Defined.

Lemma notified_never_decreases_witness :
  let E1 := sample_env 1700000000000000 (Reply 200 alice_work "") None None in
  let E2 := sample_env 1700090000000000 (Reply 200 alice_work "") None None in
  exists doc',
    lookup_doc "alice"
      (runs [(E1, sample_args, sample_rest); (E2, sample_args, sample_rest)]
         [alice_doc 1699000000000000]) = Some doc' /\
    1699000000000000 <= notified doc'.
Proof.
  intros E1 E2.
  refine (proj2 (notified_never_decreases
            [(E1, sample_args, sample_rest); (E2, sample_args, sample_rest)]
            [alice_doc 1699000000000000] _) "alice" (alice_doc 1699000000000000) _).
  - repeat constructor; intros i j Hij; simpl; lia.
  - reflexivity.
Defined.

(** ** The further statements at sample inputs *)

Lemma notify_allowed_missing_active_witness :
  notify_allowed (sample_env 0 (Reply 404 PNone "") None None) "alice"
    (PDict {[ "config" := PDict {[ "first" := PStr "Alice" ]} ]}) (world_with [])
  = Raise (KeyError "active") (world_with []).
Proof.
  apply (notify_allowed_missing_active _ _ _ {[ "first" := PStr "Alice" ]});
    vm_compute; reflexivity.
Defined.



Lemma generate_email_missing_keys_witness :
  generate_email (sample_env 0 (Reply 404 PNone "") None None) sample_args "alice"
    (PDict {[ "active" := PStr "Y" ]}) "614.4G" (world_with [])
  = Raise (KeyError "first") (world_with []).
Proof.
  apply (proj1 (generate_email_missing_keys
                  (sample_env 0 (Reply 404 PNone "") None None) sample_args "alice"
                  {[ "active" := PStr "Y" ]} "614.4G" (world_with []))).
  vm_compute. reflexivity.
Defined.


Lemma lookup_failure_is_fatal_witness :
  let E := batch_env 1700000000000000 (Reply 200 [alice; bob] "")
             (Some (OtherException "ServerSelectionTimeoutError")) in
  exists w',
    for_each [alice; bob] (process_usr E sample_args sample_rest) (world_with [])
    = Exit (-1) w' /\ printed w' = [].
Proof.
  intros E.
  destruct (lookup_failure_is_fatal E sample_args sample_rest alice alice_work
              alice_config "" (OtherException "ServerSelectionTimeoutError")
              (world_with [])) as [_ Hloop]; try (vm_compute; reflexivity).
  eexists. split; [apply (Hloop [bob])|reflexivity].
Defined.

Lemma cooldown_warning_reports_time_left_witness :
  exists w',
    notify_allowed (sample_env 1700000000000000 (Reply 200 alice_work "") None None)
      "alice" alice_work (world_with [alice_doc 1699990000000001]) = Ret false w' /\
    logged w' = [(WARNING, LogCooldown "alice" 76400)].
Proof.
  destruct (cooldown_warning_reports_time_left
              (sample_env 1700000000000000 (Reply 200 alice_work "") None None)
              "alice" alice_work alice_config (alice_doc 1699990000000001)
              (world_with [alice_doc 1699990000000001])) as [Hrun _];
    try (vm_compute; reflexivity).
  - vm_compute. split; [discriminate|reflexivity].
  - eexists. split; [exact Hrun|reflexivity].
Defined.

Lemma cooldown_warning_for_future_record_witness :
  exists w',
    notify_allowed (sample_env 1700000000000000 (Reply 200 alice_work "") None None)
      "alice" alice_work (world_with [alice_doc 1700000001000001]) = Ret false w' /\
    logged w' = [(WARNING, LogCooldown "alice" 1)].
Proof.
  destruct (cooldown_warning_for_future_record
              (sample_env 1700000000000000 (Reply 200 alice_work "") None None)
              "alice" alice_work alice_config (alice_doc 1700000001000001)
              (world_with [alice_doc 1700000001000001])) as [Hrun _];
    try (vm_compute; reflexivity).
  eexists. split; [exact Hrun|reflexivity].
Defined.

Lemma run_keeps_one_document_per_user_witness :
  List.NoDup
    (map userId
       (db_overage
          (final (process_usage
                    (batch_env 1700000000000000 (Reply 200 [alice; bob; alice] "") None)
                    sample_args sample_rest (world_with [alice_doc 0]))))).
Proof.
  apply run_keeps_one_document_per_user.
  simpl. constructor; [intros []|constructor].
Defined.

Lemma dry_run_changes_nothing_witness :
  let w' := final (process_usage
                     (batch_env 1700000000000000 (Reply 200 [alice; bob] "") None)
                     dry_args sample_rest (world_with [])) in
  db_overage w' = [] /\ outbox w' = [].
Proof.
  apply (dry_run_changes_nothing
           (batch_env 1700000000000000 (Reply 200 [alice; bob] "") None)
           dry_args sample_rest (world_with [])).
  reflexivity.
Defined.

Lemma ledger_records_only_flagged_rows_witness :
  exists u t,
    In u [alice; bob] /\ exceeds sample_args u = true /\
    {| userId := "alice"; doc_size := "614.4G"; notified := 1700000000000004 |}
    = doc_for u t.
Proof.
  destruct (ledger_records_only_flagged_rows
              (batch_env 1700000000000000 (Reply 200 [alice; bob] "") None)
              sample_args sample_rest [alice; bob] "" (world_with [])
              eq_refl
              {| userId := "alice"; doc_size := "614.4G";
                 notified := 1700000000000004 |})
    as [[]|(u & t & Hu & Hx & _ & Hdoc)].
  - vm_compute. left. reflexivity.
  - exists u, t. auto.
Defined.

Lemma at_most_one_mail_per_flagged_row_witness :
  exists mails,
    outbox (final (process_usage
                     (batch_env 1700000000000000 (Reply 200 [alice; bob] "") None)
                     sample_args sample_rest (world_with []))) = mails /\
    (length mails <= 1)%nat.
Proof.
  destruct (at_most_one_mail_per_flagged_row
              (batch_env 1700000000000000 (Reply 200 [alice; bob] "") None)
              sample_args sample_rest [alice; bob] "" (world_with []) eq_refl)
    as (mails & Hout & Hlen).
  exists mails. split; [exact Hout|exact Hlen].
Defined.

Lemma below_limit_batch_is_green_witness :
  process_usage (batch_env 1700000000000000 (Reply 200 [bob; bob] "") None)
    sample_args sample_rest (world_with [])
  = Ret tt {| db_overage := []; steps := 1; logged := [];
              printed := [(GREEN, "bob", "307.2G"); (GREEN, "bob", "307.2G")];
              outbox := [] |}.
Proof.
  apply (below_limit_batch_is_green
           (batch_env 1700000000000000 (Reply 200 [bob; bob] "") None)
           sample_args sample_rest [bob; bob] "" (world_with [])).
  - reflexivity.
  - repeat constructor.
Defined.

Lemma starfish_not_found_raises_witness :
  process_usage (batch_env 1700000000000000 (Reply 404 [] "") None)
    sample_args sample_rest (world_with [])
  = Raise TypeError (tick (world_with [])).
Proof.
  apply (starfish_not_found_raises
           (batch_env 1700000000000000 (Reply 404 [] "") None)
           sample_args sample_rest [] "" (world_with [])).
  reflexivity.
Defined.

Lemma one_line_per_row_witness :
  exists w' lines,
    process_usage (batch_env 1700000000000000 (Reply 200 [bob; alice] "") None)
      dry_args sample_rest (world_with []) = Ret tt w' /\
    printed w' = lines /\ length lines = 2%nat.
Proof.
  eexists. 
  destruct (one_line_per_row
              (batch_env 1700000000000000 (Reply 200 [bob; alice] "") None)
              dry_args sample_rest [bob; alice] "" (world_with []) _
              eq_refl ltac:(vm_compute; reflexivity)) as (lines & Hpr & Hall).
  exists lines. split; [vm_compute; reflexivity|]. split; [exact Hpr|].
  apply Forall2_length in Hall. exact Hall.
Defined.


Lemma missing_token_is_fatal_witness :
  exists w',
    script (sample_startup ∅ false None)
      (batch_env 1700000000000000 (Reply 200 [alice; bob] "") None)
      sample_args (world_with []) = Exit (-1) w' /\
    steps w' = 1%nat /\ outbox w' = [].
Proof.
  destruct (missing_token_is_fatal (sample_startup ∅ false None)
              (batch_env 1700000000000000 (Reply 200 [alice; bob] "") None)
              sample_args sample_rest (world_with [])) as [_ Hscript].
  - vm_compute. reflexivity.
  - eexists. split; [apply Hscript; reflexivity|]. split; reflexivity.
Defined.

Lemma initialize_program_returns_connected_witness :
  exists k dbconfig d,
    databases_config (sample_startup {[ "STARFISH_JWT" := "janelia:secret" ]} false None) k
    = inr dbconfig /\
    dbconfig !! "storage.dev.write" = Some d.
Proof.
  destruct (initialize_program_returns_connected
              (sample_startup {[ "STARFISH_JWT" := "janelia:secret" ]} false None)
              sample_rest
              (<["storage" := Connection storage_dbo]> ∅)
              (world_with [])
              {| db_overage := []; steps := 2;
                 logged := [(INFO, LogText "Connecting to storage dev on mongodb.int.janelia.org as storageWrite")];
                 printed := []; outbox := [] |})
    as (_ & k & dbconfig & d & Hcfg & Hd & _).
  - vm_compute. reflexivity.
  - exists k, dbconfig, d. split; [exact Hcfg|exact Hd].
Defined.

Lemma database_connection_failure_is_fatal_witness :
  exists w',
    initialize_program
      (sample_startup {[ "STARFISH_JWT" := "janelia:secret" ]} false
         (Some (OtherException "ServerSelectionTimeoutError")))
      sample_rest (world_with []) = Exit (-1) w' /\
    steps w' = 2%nat.
Proof.
  eexists. split.
  - apply (database_connection_failure_is_fatal
             (sample_startup {[ "STARFISH_JWT" := "janelia:secret" ]} false
                (Some (OtherException "ServerSelectionTimeoutError")))
             sample_rest "janelia:secret" {[ "storage.dev.write" := storage_dbo ]}
             storage_dbo (OtherException "ServerSelectionTimeoutError") (world_with []));
      vm_compute; reflexivity.
  - reflexivity.
Defined.

Lemma debug_token_without_colon_witness :
  initialize_program (sample_startup {[ "STARFISH_JWT" := "secret" ]} true None)
    sample_rest (world_with [])
  = Raise (OtherException "IndexError") (world_with []).
Proof.
  apply (debug_token_without_colon
           (sample_startup {[ "STARFISH_JWT" := "secret" ]} true None)
           sample_rest "secret" (world_with [])).
  - vm_compute. reflexivity.
  - reflexivity.
  - simpl. intuition discriminate.
Defined.

Lemma debug_checks_the_token_witness :
  exists DB w',
    initialize_program
      (sample_startup {[ "STARFISH_JWT" := "janelia:secret" ]} true None)
      sample_rest (world_with []) = Ret DB w' /\
    DB !! "storage" = Some (Connection storage_dbo) /\
    steps w' = 3%nat.
Proof.
  eexists _, _. split.
  - apply (debug_checks_the_token
             (sample_startup {[ "STARFISH_JWT" := "janelia:secret" ]} true None)
             sample_rest "janelia" "secret" "" {| valid_until_hum := "2030-01-01" |}
             {[ "storage.dev.write" := storage_dbo ]} storage_dbo (world_with []));
      try (vm_compute; reflexivity); simpl; intuition discriminate.
  - split; [vm_compute; reflexivity|reflexivity].
Defined.

Lemma no_processing_without_initialization_witness :
  let w' := final (script (sample_startup ∅ false None)
                     (batch_env 1700000000000000 (Reply 200 [alice; bob] "") None)
                     sample_args (world_with [])) in
  db_overage w' = [] /\ outbox w' = [] /\ printed w' = [].
Proof.
  apply (no_processing_without_initialization (sample_startup ∅ false None)
           (batch_env 1700000000000000 (Reply 200 [alice; bob] "") None)
           sample_args (world_with [])).
  intros REST w1 Hcfg. vm_compute in Hcfg. injection Hcfg as <- <-.
  vm_compute. reflexivity.
Defined.
